(** * brewblox_devcon_spark: the command codec and the serial framing

    A shallow embedding of [brewblox_devcon_spark/commands.py].  The layouts of
    that module are written with the combinators of the [construct] package
    (release 2.9 conventions: [Const(value, subcon)], three-argument adapter
    hooks, integer-convertible enum labels).  The combinators the module
    imports are embedded as the inductive type [Construct] with the two
    interpreters [parse] and [build]; every layout of the module is then the
    same expression as in the Python text. *)

From Stdlib Require Import ZArith List String Ascii Bool Lia DecimalString.
Import ListNotations.

Open Scope Z_scope.
Set Warnings "-register-all".

(* ------------------------------------------------------------------ *)
(** ** Python values and exceptions *)

(** The exceptions the module and the combinators raise. *)
Inductive error : Type :=
| StreamError        (* reading past the end of the data *)
| FormatFieldError   (* struct.pack refused the object *)
| ConstError
| MappingError
| RepeatError
| RangeError
| TerminatedError
| SelectError
| IndexError
| TypeError
| ValueError
| AssertionError
| KeyError (msg : string).

Inductive result (A : Type) : Type :=
| Ok (a : A)
| Raise (e : error).
Arguments Ok {A} a.
Arguments Raise {A} e.

Definition bind {A B : Type} (r : result A) (k : A -> result B) : result B :=
  match r with
  | Ok a => k a
  | Raise e => Raise e
  end.

Notation "x <- r ;; k" := (bind r (fun x => k))
  (at level 61, r at next level, right associativity).
Notation "' p <- r ;; k" := (bind r (fun p => k))
  (at level 61, p pattern, r at next level, right associativity).

(** The objects that flow through [parse] and [build].  [VLabel] is the
    integer-convertible string an [Enum] parses to; a [VDict] is a
    [Container], kept in insertion order. *)
Inductive value : Type :=
| VNone
| VInt (n : Z)
| VBool (b : bool)
| VLabel (name : string) (intvalue : Z)
| VList (items : list value)
| VDict (items : list (string * value)).

(** A byte string: each element is meant to lie in 0..255. *)
Definition bytes : Type := list Z.

Definition is_byte (b : Z) : Prop := 0 <= b <= 255.

(** [isinstance(obj, int)]: Python's [bool] is a subclass of [int]. *)
Definition as_int (obj : value) : option Z :=
  match obj with
  | VInt n => Some n
  | VBool b => Some (if b then 1 else 0)
  | _ => None
  end.

(** [int(obj)] for the objects an [Enum] parses to. *)
Definition int (obj : value) : result Z :=
  match obj with
  | VInt n => Ok n
  | VBool b => Ok (if b then 1 else 0)
  | VLabel _ n => Ok n
  | _ => Raise TypeError
  end.

(** Truth value of an object, as [if value:] tests it. *)
Definition truthy (obj : value) : bool :=
  match obj with
  | VNone => false
  | VInt n => negb (n =? 0)
  | VBool b => b
  | VLabel name _ => negb (String.eqb name EmptyString)
  | VList items => match items with [] => false | _ => true end
  | VDict items => match items with [] => false | _ => true end
  end.

(** [d.get(key)] / [d[key]]: the first binding of the key. *)
Fixpoint lookup {A : Type} (key : string) (d : list (string * A)) : option A :=
  match d with
  | [] => None
  | (k, v) :: rest => if String.eqb k key then Some v else lookup key rest
  end.

(** The label bound to an integer, for [Enum.decmapping]. *)
Fixpoint label_of (n : Z) (mapping : list (string * Z)) : option string :=
  match mapping with
  | [] => None
  | (name, v) :: rest => if v =? n then Some name else label_of n rest
  end.

(* ------------------------------------------------------------------ *)
(** ** The combinators of [construct] that commands.py imports

    What each combinator does, as the interpreters below have it:
    - [Int8ub] ([Byte]) and [Int8sb] read and write one byte, unsigned and
      signed; writing an integer out of range fails.
    - [Const(value, subcon)] reads the subcon and fails on another value; it
      writes [value], given [None] or [value].
    - [Enum] reads the subcon's integer and hands back its label, or the bare
      integer when no label has it; it writes a label's integer, or an
      integer as it is.
    - [FlagsEnum] reads an integer [n] into a dict that maps each flag name
      to [n & flag == flag]; it writes the union of the flags that are true.
    - [Select] takes the first subcon that succeeds, on reading (from the
      same position) and on writing; [Optional(subcon)] is
      [Select(subcon, Pass)].
    - [Padding(n)] skips [n] bytes on reading and writes [n] zero bytes.
    - [RepeatUntil(predicate, subcon)] reads items up to and including the
      first that satisfies the predicate; it writes items up to and
      including the first that satisfies it, and fails if none does.
    - [subcon[:]] reads items until the subcon fails and writes every item.
    - [Sequence] reads its subcons in order into a list; it writes one item
      per subcon and stops when the items run out.
    - [Struct] reads its members in order and keeps the named ones in a
      Container; it writes each member from the entry under its name, a
      missing entry standing for [None] where the member allows it.
    - [Terminated] fails unless the stream is at its end.
    - [Adapter] applies [_decode] after reading and [_encode] before
      writing. *)

Inductive Construct : Type :=
| Int8ub
| Int8sb
| Pass
| Terminated
| Const (value : Z) (subcon : Construct)
| Enum (subcon : Construct) (mapping : list (string * Z))
| FlagsEnum (subcon : Construct) (flags : list (string * Z))
| Select (subcons : list Construct)
| Padding (length : nat)
| RepeatUntil (predicate : value -> list value -> bool) (subcon : Construct)
| GreedyRange (subcon : Construct)
| Sequence (subcons : list Construct)
| Struct (subcons : list (option string * Construct))
| Adapter (encode decode : value -> result value) (subcon : Construct).

(** [Byte] is the same field as [Int8ub]. *)
Definition Byte : Construct := Int8ub.

(** [Optional(subcon)] is [Select(subcon, Pass)]. *)
Definition Optional (subcon : Construct) : Construct := Select [subcon; Pass].

(** [subcon[:]] is the unbounded range [Range(0, sys.maxsize, subcon)]. *)
Definition slice_all (subcon : Construct) : Construct := GreedyRange subcon.

(** ['name' / subcon] and a subcon without a name, as members of a Struct. *)
Definition named (name : string) (subcon : Construct) : option string * Construct :=
  (Some name, subcon).
Definition unnamed (subcon : Construct) : option string * Construct :=
  (None, subcon).

(** [lhs + rhs]: the members of both sides in one Struct; a side that is not
    a Struct counts as one member without a name. *)
Definition members (c : Construct) : list (option string * Construct) :=
  match c with
  | Struct subcons => subcons
  | _ => [unnamed c]
  end.
Definition struct_add (lhs rhs : Construct) : Construct :=
  Struct (members lhs ++ members rhs).
Infix "+++" := struct_add (at level 50, left associativity).

(** [flagbuildnone]: whether a member may be built from a missing key. *)
Fixpoint flagbuildnone (c : Construct) : bool :=
  match c with
  | Int8ub | Int8sb => false
  | Pass | Terminated => true
  | Const _ _ => true
  | Enum subcon _ => flagbuildnone subcon
  | FlagsEnum subcon _ => flagbuildnone subcon
  | Select subcons =>
      (fix any (l : list Construct) : bool :=
         match l with
         | [] => false
         | sc :: rest => flagbuildnone sc || any rest
         end) subcons
  | Padding _ => true
  | RepeatUntil _ subcon => flagbuildnone subcon
  | GreedyRange subcon => flagbuildnone subcon
  | Sequence subcons =>
      (fix all (l : list Construct) : bool :=
         match l with
         | [] => true
         | sc :: rest => flagbuildnone sc && all rest
         end) subcons
  | Struct subcons =>
      (fix all (l : list (option string * Construct)) : bool :=
         match l with
         | [] => true
         | (_, sc) :: rest => flagbuildnone sc && all rest
         end) subcons
  | Adapter _ _ subcon => flagbuildnone subcon
  end.

(** *** Parsing

    [parse c data] reads one [c] from the front of [data] and returns the
    object with the unread rest.  The two repeaters loop on the stream; their
    loops are bounded by the number of unread bytes plus one, which is enough
    whenever the repeated subcon reads at least one byte (see
    [parse_GreedyRange_Byte] and [parse_until_Byte_fuel]). *)
Fixpoint parse (c : Construct) (data : bytes) {struct c} : result (value * bytes) :=
  match c with
  | Int8ub =>
      match data with
      | [] => Raise StreamError
      | b :: rest => Ok (VInt b, rest)
      end
  | Int8sb =>
      match data with
      | [] => Raise StreamError
      | b :: rest => Ok (VInt (if b <? 128 then b else b - 256), rest)
      end
  | Pass => Ok (VNone, data)
  | Terminated =>
      match data with
      | [] => Ok (VNone, [])
      | _ :: _ => Raise TerminatedError
      end
  | Const v subcon =>
      '(obj, rest) <- parse subcon data ;;
      match as_int obj with
      | Some n => if n =? v then Ok (obj, rest) else Raise ConstError
      | None => Raise ConstError
      end
  | Enum subcon mapping =>
      '(obj, rest) <- parse subcon data ;;
      match as_int obj with
      | Some n =>
          match label_of n mapping with
          | Some name => Ok (VLabel name n, rest)
          | None => Ok (VInt n, rest)
          end
      | None => Raise MappingError
      end
  | FlagsEnum subcon flags =>
      '(obj, rest) <- parse subcon data ;;
      match as_int obj with
      | Some n =>
          Ok (VDict (map (fun '(name, v) => (name, VBool (Z.land n v =? v))) flags),
              rest)
      | None => Raise TypeError
      end
  | Select subcons =>
      (fix select (l : list Construct) : result (value * bytes) :=
         match l with
         | [] => Raise SelectError
         | sc :: others =>
             match parse sc data with
             | Ok r => Ok r
             | Raise _ => select others
             end
         end) subcons
  | Padding n =>
      if (n <=? List.length data)%nat
      then Ok (VNone, skipn n data)
      else Raise StreamError
  | RepeatUntil predicate subcon =>
      (fix loop (fuel : nat) (s : bytes) (obj : list value) : result (value * bytes) :=
         match fuel with
         | O => Raise StreamError
         | S fuel' =>
             '(subobj, rest) <- parse subcon s ;;
             let obj' := obj ++ [subobj] in
             if predicate subobj obj'
             then Ok (VList obj', rest)
             else loop fuel' rest obj'
         end) (S (List.length data)) data []
  | GreedyRange subcon =>
      let '(obj, rest) :=
        (fix loop (fuel : nat) (s : bytes) : list value * bytes :=
           match fuel with
           | O => ([], s)
           | S fuel' =>
               match parse subcon s with
               | Raise _ => ([], s)
               | Ok (subobj, rest) =>
                   let '(more, rest') := loop fuel' rest in
                   (subobj :: more, rest')
               end
           end) (S (List.length data)) data in
      Ok (VList obj, rest)
  | Sequence subcons =>
      '(obj, rest) <-
        (fix each (l : list Construct) (s : bytes) : result (list value * bytes) :=
           match l with
           | [] => Ok ([], s)
           | sc :: others =>
               '(subobj, rest) <- parse sc s ;;
               '(more, rest') <- each others rest ;;
               Ok (subobj :: more, rest')
           end) subcons data ;;
      Ok (VList obj, rest)
  | Struct subcons =>
      '(obj, rest) <-
        (fix each (l : list (option string * Construct)) (s : bytes)
           : result (list (string * value) * bytes) :=
           match l with
           | [] => Ok ([], s)
           | (name, sc) :: others =>
               '(subobj, rest) <- parse sc s ;;
               '(more, rest') <- each others rest ;;
               match name with
               | Some n => Ok ((n, subobj) :: more, rest')
               | None => Ok (more, rest')
               end
           end) subcons data ;;
      Ok (VDict obj, rest)
  | Adapter _ decode subcon =>
      '(obj, rest) <- parse subcon data ;;
      obj' <- decode obj ;;
      Ok (obj', rest)
  end.

(** *** Building

    [build c obj] is the byte string [c.build(obj)] returns, or the exception
    it raises.  Bytes written before an exception are lost with it. *)

(** [struct.pack] of one unsigned, respectively signed, byte. *)
Definition pack_B (obj : value) : result bytes :=
  match as_int obj with
  | Some n => if (0 <=? n) && (n <=? 255) then Ok [n] else Raise FormatFieldError
  | None => Raise FormatFieldError
  end.

Definition pack_b (obj : value) : result bytes :=
  match as_int obj with
  | Some n =>
      if (-128 <=? n) && (n <=? 127)
      then Ok [if n <? 0 then n + 256 else n]
      else Raise FormatFieldError
  | None => Raise FormatFieldError
  end.

(** [FlagsEnum._encode] on a dict: the bits of the names whose value is true. *)
Fixpoint encode_flags (flags : list (string * Z)) (items : list (string * value))
  : result Z :=
  match items with
  | [] => Ok 0
  | (name, v) :: rest =>
      acc <- encode_flags flags rest ;;
      if truthy v
      then match lookup name flags with
           | Some bit => Ok (Z.lor bit acc)
           | None => Raise MappingError
           end
      else Ok acc
  end.

Fixpoint build (c : Construct) (obj : value) {struct c} : result bytes :=
  match c with
  | Int8ub => pack_B obj
  | Int8sb => pack_b obj
  | Pass => Ok []
  | Terminated => Ok []
  | Const v subcon =>
      match obj with
      | VNone => build subcon (VInt v)
      | _ =>
          match as_int obj with
          | Some n => if n =? v then build subcon (VInt v) else Raise ConstError
          | None => Raise ConstError
          end
      end
  | Enum subcon mapping =>
      match obj with
      | VInt _ | VBool _ => build subcon obj
      | VLabel name _ =>
          match lookup name mapping with
          | Some n => build subcon (VInt n)
          | None => Raise MappingError
          end
      | VNone => Raise MappingError
      | VList _ | VDict _ => Raise TypeError
      end
  | FlagsEnum subcon flags =>
      match obj with
      | VInt _ | VBool _ => build subcon obj
      | VDict items =>
          n <- encode_flags flags items ;;
          build subcon (VInt n)
      | _ => Raise MappingError
      end
  | Select subcons =>
      (fix select (l : list Construct) : result bytes :=
         match l with
         | [] => Raise SelectError
         | sc :: others =>
             match build sc obj with
             | Ok data => Ok data
             | Raise _ => select others
             end
         end) subcons
  | Padding n => Ok (repeat 0 n)
  | RepeatUntil predicate subcon =>
      match obj with
      | VList items =>
          (fix loop (l : list value) (seen : list value) : result bytes :=
             match l with
             | [] => Raise RepeatError
             | subobj :: others =>
                 data <- build subcon subobj ;;
                 if predicate subobj (seen ++ [subobj])
                 then Ok data
                 else
                   more <- loop others (seen ++ [subobj]) ;;
                   Ok (data ++ more)
             end) items []
      | _ => Raise TypeError
      end
  | GreedyRange subcon =>
      match obj with
      | VList items =>
          (fix each (l : list value) : result bytes :=
             match l with
             | [] => Ok []
             | subobj :: others =>
                 data <- build subcon subobj ;;
                 more <- each others ;;
                 Ok (data ++ more)
             end) items
      | _ => Raise RangeError
      end
  | Sequence subcons =>
      match obj with
      | VNone =>
          (fix each (l : list Construct) : result bytes :=
             match l with
             | [] => Ok []
             | sc :: others =>
                 data <- build sc VNone ;;
                 more <- each others ;;
                 Ok (data ++ more)
             end) subcons
      | VList items =>
          (fix each (l : list Construct) (objs : list value) : result bytes :=
             match l, objs with
             | [], _ => Ok []
             | _ :: _, [] => Ok []        (* next() is exhausted: the loop stops *)
             | sc :: others, subobj :: objs' =>
                 data <- build sc subobj ;;
                 more <- each others objs' ;;
                 Ok (data ++ more)
             end) subcons items
      | _ => Raise TypeError
      end
  | Struct subcons =>
      let each (items : list (string * value)) :=
        (fix each (l : list (option string * Construct)) : result bytes :=
           match l with
           | [] => Ok []
           | (name, sc) :: others =>
               let found := match name with
                            | Some n => lookup n items
                            | None => None
                            end in
               subobj <- match found with
                         | Some v => Ok v
                         | None =>
                             if flagbuildnone sc then Ok VNone
                             else Raise (KeyError match name with
                                                  | Some n => n
                                                  | None => "None"%string
                                                  end)
                         end ;;
               data <- build sc subobj ;;
               more <- each others ;;
               Ok (data ++ more)
           end) in
      match obj with
      | VNone => each [] subcons
      | VDict items => each items subcons
      | _ => Raise TypeError
      end
  | Adapter encode _ subcon =>
      obj' <- encode obj ;;
      build subcon obj'
  end.

(** [c.parse(data)] and [c.build(obj)] as called on a layout: parsing hands
    back the object and does not look at unread bytes. *)
Definition parse_bytes (c : Construct) (data : bytes) : result value :=
  '(obj, _) <- parse c data ;;
  Ok obj.

(* ------------------------------------------------------------------ *)
(** ** commands.py *)

(** The labels of [OpcodeEnum]. *)
Inductive CommandKind : Type :=
| READ_VALUE
| WRITE_VALUE
| CREATE_OBJECT
| DELETE_OBJECT
| LIST_OBJECTS
| FREE_SLOT
| CREATE_PROFILE
| DELETE_PROFILE
| ACTIVATE_PROFILE
| LOG_VALUES
| RESET
| FREE_SLOT_ROOT
| UNUSED
| LIST_PROFILES
| READ_SYSTEM_VALUE
| WRITE_SYSTEM_VALUE.

Definition all_kinds : list CommandKind :=
  [READ_VALUE; WRITE_VALUE; CREATE_OBJECT; DELETE_OBJECT; LIST_OBJECTS;
   FREE_SLOT; CREATE_PROFILE; DELETE_PROFILE; ACTIVATE_PROFILE; LOG_VALUES;
   RESET; FREE_SLOT_ROOT; UNUSED; LIST_PROFILES; READ_SYSTEM_VALUE;
   WRITE_SYSTEM_VALUE].

Definition kind_name (k : CommandKind) : string :=
  match k with
  | READ_VALUE => "READ_VALUE"
  | WRITE_VALUE => "WRITE_VALUE"
  | CREATE_OBJECT => "CREATE_OBJECT"
  | DELETE_OBJECT => "DELETE_OBJECT"
  | LIST_OBJECTS => "LIST_OBJECTS"
  | FREE_SLOT => "FREE_SLOT"
  | CREATE_PROFILE => "CREATE_PROFILE"
  | DELETE_PROFILE => "DELETE_PROFILE"
  | ACTIVATE_PROFILE => "ACTIVATE_PROFILE"
  | LOG_VALUES => "LOG_VALUES"
  | RESET => "RESET"
  | FREE_SLOT_ROOT => "FREE_SLOT_ROOT"
  | UNUSED => "UNUSED"
  | LIST_PROFILES => "LIST_PROFILES"
  | READ_SYSTEM_VALUE => "READ_SYSTEM_VALUE"
  | WRITE_SYSTEM_VALUE => "WRITE_SYSTEM_VALUE"
  end.

(** [OpcodeEnum.encmapping[kind]]. *)
Definition encmapping (k : CommandKind) : Z :=
  match k with
  | READ_VALUE => 1
  | WRITE_VALUE => 2
  | CREATE_OBJECT => 3
  | DELETE_OBJECT => 4
  | LIST_OBJECTS => 5
  | FREE_SLOT => 6
  | CREATE_PROFILE => 7
  | DELETE_PROFILE => 8
  | ACTIVATE_PROFILE => 9
  | LOG_VALUES => 10
  | RESET => 11
  | FREE_SLOT_ROOT => 12
  | UNUSED => 13
  | LIST_PROFILES => 14
  | READ_SYSTEM_VALUE => 15
  | WRITE_SYSTEM_VALUE => 16
  end.

Definition OpcodeEnum : Construct :=
  Enum Byte (map (fun k => (kind_name k, encmapping k)) all_kinds).

Definition ErrorcodeEnum : Construct :=
  Enum Int8sb
       [("OK"%string, 0);
        ("UNKNOWN_ERROR"%string, -1);
        ("STREAM_ERROR"%string, -2);
        ("PROFILE_NOT_ACTIVE"%string, -3);
        ("INSUFFICIENT_PERSISTENT_STORAGE"%string, -16);
        ("INSUFFICIENT_HEAP"%string, -17);
        ("OBJECT_NOT_WRITABLE"%string, -32);
        ("OBJECT_NOT_READABLE"%string, -33);
        ("OBJECT_NOT_CREATABLE"%string, -34);
        ("OBJECT_NOT_DELETABLE"%string, -35);
        ("OBJECT_NOT_CONTAINER"%string, -37);
        ("CONTAINER_FULL"%string, -38);
        ("INVALID_PARAMETER"%string, -64);
        ("INVALID_OBJECT_ID"%string, -65);
        ("INVALID_TYPE"%string, -66);
        ("INVALID_SIZE"%string, -67);
        ("INVALID_PROFILE"%string, -68);
        ("INVALID_ID"%string, -69)].

(** *** VariableLengthIDAdapter *)

(** [lambda obj, lst, ctx: obj & 0x80 == 0x00].  The test is only reached on
    objects a [Byte] has read or written, which are integers. *)
Definition no_nesting_flag (obj : value) (lst : list value) : bool :=
  match as_int obj with
  | Some b => Z.land b 128 =? 0
  | None => false
  end.

(** [[b | 0x80 for b in items]] *)
Fixpoint add_nesting_flags (items : list value) : result (list value) :=
  match items with
  | [] => Ok []
  | b :: rest =>
      match as_int b with
      | Some n =>
          more <- add_nesting_flags rest ;;
          Ok (VInt (Z.lor n 128) :: more)
      | None => Raise TypeError
      end
  end.

(** [[b & 0x7F for b in items]] *)
Fixpoint remove_nesting_flags (items : list value) : result (list value) :=
  match items with
  | [] => Ok []
  | b :: rest =>
      match as_int b with
      | Some n =>
          more <- remove_nesting_flags rest ;;
          Ok (VInt (Z.land n 127) :: more)
      | None => Raise TypeError
      end
  end.

(** [_encode]: [[b | 0x80 for b in obj[:-1]] + [obj[-1]]] *)
Definition _encode (obj : value) : result value :=
  match obj with
  | VList items =>
      flagged <- add_nesting_flags (removelast items) ;;
      match items with
      | [] => Raise IndexError
      | _ :: _ => Ok (VList (flagged ++ [last items VNone]))
      end
  | _ => Raise TypeError
  end.

(** [_decode]: [[b & 0x7F for b in obj]] *)
Definition _decode (obj : value) : result value :=
  match obj with
  | VList items =>
      plain <- remove_nesting_flags items ;;
      Ok (VList plain)
  | _ => Raise TypeError
  end.

Definition VariableLengthIDAdapter : Construct :=
  Adapter _encode _decode (RepeatUntil no_nesting_flag Byte).

(** *** CommandDefinition *)

Record CommandDefinition : Type := {
  opcode : CommandKind;
  opcode_struct : Construct;
  request : Construct;
  status : Construct;
  response : Construct
}.

(** [CommandDefinition.__init__] *)
Definition new_CommandDefinition (opcode : CommandKind) (request response : Construct)
  : CommandDefinition :=
  let opcode_struct := Struct [named "opcode" (Const (encmapping opcode) Byte)] in
  let status := Struct [named "errcode" ErrorcodeEnum] in
  {| opcode := opcode;
     opcode_struct := opcode_struct;
     request := opcode_struct +++ request;
     status := status;
     response := status +++ response |}.

(** *** Generics *)

Definition OBJECT_ID : Construct := Struct [named "id" VariableLengthIDAdapter].
Definition OBJECT_TYPE : Construct := Struct [named "type" Byte].
Definition OBJECT_SIZE : Construct := Struct [named "size" Byte].
Definition OBJECT_DATA : Construct := Struct [named "data" (slice_all Byte)].

Definition PROFILE_ID : Construct := Struct [named "profile_id" Int8sb].

(** *** The registry

    [COMMAND_DEFS] is a dict keyed by the opcode label; a label is a string,
    so the same entry answers a lookup by kind name and a lookup by the label
    [OpcodeEnum] parses to. *)
Definition registry : Type := list (string * CommandDefinition).

(** [d[key] = v]: overwrite the binding of the key, or add one at the end. *)
Fixpoint setitem {A : Type} (key : string) (v : A) (d : list (string * A))
  : list (string * A) :=
  match d with
  | [] => [(key, v)]
  | (k, old) :: rest =>
      if String.eqb k key then (k, v) :: rest else (k, old) :: setitem key v rest
  end.

Definition _define_command (opcode : CommandKind) (request response : Construct)
  (defs : registry) : registry :=
  setitem (kind_name opcode) (new_CommandDefinition opcode request response) defs.

(** The module body after [COMMAND_DEFS = dict()]: the calls of
    [_define_command], in the order of the file.  An argument that is left
    out takes the default [Struct()]. *)
Definition COMMAND_DEFS : registry :=
  let defs : registry := [] in
  let defs := _define_command READ_VALUE
    (OBJECT_ID +++ OBJECT_TYPE +++ OBJECT_SIZE)
    (OBJECT_TYPE +++ OBJECT_SIZE +++ OBJECT_DATA) defs in
  let defs := _define_command WRITE_VALUE
    (OBJECT_ID +++ OBJECT_TYPE +++ OBJECT_SIZE +++ OBJECT_DATA)
    (OBJECT_TYPE +++ OBJECT_SIZE +++ OBJECT_DATA) defs in
  let defs := _define_command CREATE_OBJECT
    (OBJECT_TYPE +++ OBJECT_SIZE +++ OBJECT_DATA)
    (Struct []) defs in
  let defs := _define_command DELETE_OBJECT
    OBJECT_ID
    (Struct []) defs in
  let defs := _define_command LIST_OBJECTS
    PROFILE_ID
    (Struct [unnamed (Padding 1);
             named "objects"
               (Optional (Sequence
                  [OBJECT_ID +++ OBJECT_TYPE +++ OBJECT_SIZE +++ OBJECT_DATA]));
             named "terminator" (Const 0 Byte);
             unnamed Terminated]) defs in
  let defs := _define_command FREE_SLOT
    OBJECT_ID
    (Struct []) defs in
  let defs := _define_command CREATE_PROFILE
    (Struct [])
    PROFILE_ID defs in
  let defs := _define_command DELETE_PROFILE
    PROFILE_ID
    (Struct []) defs in
  let defs := _define_command ACTIVATE_PROFILE
    PROFILE_ID
    (Struct []) defs in
  let defs := _define_command LOG_VALUES
    (Struct [named "flags"
               (FlagsEnum Byte [("id_chain"%string, 1);
                                ("system_container"%string, 2);
                                ("default"%string, 0)])]
     +++ Optional OBJECT_ID)
    (Struct [named "objects"
               (Optional (Sequence
                  [Padding 1 +++ OBJECT_ID +++ OBJECT_TYPE +++ OBJECT_SIZE
                   +++ OBJECT_DATA]));
             named "terminator" (Const 0 Byte);
             unnamed Terminated]) defs in
  let defs := _define_command RESET
    (Struct [named "flags"
               (FlagsEnum Byte [("erase_eeprom"%string, 1);
                                ("hard_reset"%string, 2);
                                ("default"%string, 0)])])
    (Struct []) defs in
  let defs := _define_command FREE_SLOT_ROOT
    OBJECT_ID
    (Struct []) defs in
  let defs := _define_command LIST_PROFILES
    (Struct [])
    (PROFILE_ID +++ Struct [named "defined_profiles" (Sequence [Int8ub])]) defs in
  let defs := _define_command READ_SYSTEM_VALUE
    (OBJECT_ID +++ OBJECT_TYPE +++ OBJECT_SIZE)
    (OBJECT_TYPE +++ OBJECT_SIZE +++ OBJECT_DATA) defs in
  let defs := _define_command WRITE_SYSTEM_VALUE
    (OBJECT_ID +++ OBJECT_TYPE +++ OBJECT_SIZE +++ OBJECT_DATA)
    (OBJECT_TYPE +++ OBJECT_SIZE +++ OBJECT_DATA) defs in
  defs.

(** *** Command *)

(** The exception class of the module; its argument is the message. *)
Inductive CommandException : Type :=
| mkCommandException (message : string).

(** What [decoded_response] hands back: the parsed Container, or the
    exception object [_parse_error] made (returned, not raised). *)
Inductive response_object : Type :=
| Parsed (fields : value)
| Failed (exc : CommandException).

Record Command : Type := {
  _definition : CommandDefinition;
  _encoded_request : option bytes;
  _encoded_response : option bytes;
  _decoded_request : option value;
  _decoded_response : option response_object
}.

(** [Command.__init__] *)
Definition new_Command (definition : CommandDefinition)
  (encoded : option bytes * option bytes)
  (decoded : option value * option response_object) : Command :=
  {| _definition := definition;
     _encoded_request := fst encoded;
     _encoded_response := snd encoded;
     _decoded_request := fst decoded;
     _decoded_response := snd decoded |}.

(** [str.upper()], on the ASCII letters. *)
Definition upper_ascii (c : ascii) : ascii :=
  let n := nat_of_ascii c in
  if ((97 <=? n) && (n <=? 122))%nat then ascii_of_nat (n - 32) else c.

Fixpoint upper (s : string) : string :=
  match s with
  | EmptyString => EmptyString
  | String c rest => String (upper_ascii c) (upper rest)
  end.

(** [str(n)] of an integer. *)
Definition str_of_int (n : Z) : string := NilZero.string_of_int (Z.to_int n).

(** An argument that may be [None], as the attribute it is stored in. *)
Definition not_none (obj : value) : option value :=
  match obj with
  | VNone => None
  | _ => Some obj
  end.

(** [Command.from_decoded] *)
Definition from_decoded (command_name : string) (command_args : value)
  : result Command :=
  match lookup (upper command_name) COMMAND_DEFS with
  | Some definition =>
      Ok (new_Command definition (None, None) (not_none command_args, None))
  | None =>
      Raise (KeyError ("No command definition known for [" ++ command_name ++ "]"))
  end.

(** [Command.from_encoded].  A label the enum knows is looked up as a string;
    an opcode it does not know parses to a plain integer, which is no key of
    the registry. *)
Definition from_encoded (request response : option bytes) : result Command :=
  match request with
  | None => Raise TypeError
  | Some data =>
      opcode <- parse_bytes OpcodeEnum data ;;
      let unknown (shown : string) :=
        Raise (KeyError ("Failed to identify command for opcode [" ++ shown ++ "]")) in
      match opcode with
      | VLabel name _ =>
          match lookup name COMMAND_DEFS with
          | Some definition => Ok (new_Command definition (request, response) (None, None))
          | None => unknown name
          end
      | VInt n => unknown (str_of_int n)
      | _ => unknown ""%string
      end
  end.

(** [_should_convert]: [dest is None and src is not None] *)
Definition _should_convert {A B : Type} (dest : option A) (src : option B) : bool :=
  match dest, src with
  | None, Some _ => true
  | _, _ => false
  end.

(** Assignments to the four attributes. *)
Definition set_encoded_request (self : Command) (v : option bytes) : Command :=
  {| _definition := self.(_definition);
     _encoded_request := v;
     _encoded_response := self.(_encoded_response);
     _decoded_request := self.(_decoded_request);
     _decoded_response := self.(_decoded_response) |}.

Definition set_encoded_response (self : Command) (v : option bytes) : Command :=
  {| _definition := self.(_definition);
     _encoded_request := self.(_encoded_request);
     _encoded_response := v;
     _decoded_request := self.(_decoded_request);
     _decoded_response := self.(_decoded_response) |}.

Definition set_decoded_request (self : Command) (v : option value) : Command :=
  {| _definition := self.(_definition);
     _encoded_request := self.(_encoded_request);
     _encoded_response := self.(_encoded_response);
     _decoded_request := v;
     _decoded_response := self.(_decoded_response) |}.

Definition set_decoded_response (self : Command) (v : option response_object)
  : Command :=
  {| _definition := self.(_definition);
     _encoded_request := self.(_encoded_request);
     _encoded_response := self.(_encoded_response);
     _decoded_request := self.(_decoded_request);
     _decoded_response := v |}.

(** [layout.build(attribute)] and [layout.parse(attribute)] on what an
    attribute holds. *)
Definition build_attribute (layout : Construct) (attribute : option value)
  : result bytes :=
  match attribute with
  | Some obj => build layout obj
  | None => build layout VNone
  end.

Definition build_response_attribute (layout : Construct)
  (attribute : option response_object) : result bytes :=
  match attribute with
  | Some (Parsed obj) => build layout obj
  | Some (Failed _) => Raise TypeError
  | None => build layout VNone
  end.

Definition parse_attribute (layout : Construct) (attribute : option bytes)
  : result value :=
  match attribute with
  | Some data => parse_bytes layout data
  | None => Raise TypeError
  end.

(** The four properties.  Each returns the value of the attribute together
    with the object after the assignment the property may have made. *)
Definition encoded_request (self : Command) : result (option bytes * Command) :=
  if _should_convert self.(_encoded_request) self.(_decoded_request)
  then
    data <- build_attribute self.(_definition).(request) self.(_decoded_request) ;;
    let self := set_encoded_request self (Some data) in
    Ok (self.(_encoded_request), self)
  else Ok (self.(_encoded_request), self).

Definition encoded_response (self : Command) : result (option bytes * Command) :=
  if _should_convert self.(_encoded_response) self.(_decoded_response)
  then
    data <- build_response_attribute self.(_definition).(response)
                                     self.(_decoded_response) ;;
    let self := set_encoded_response self (Some data) in
    Ok (self.(_encoded_response), self)
  else Ok (self.(_encoded_response), self).

Definition decoded_request (self : Command) : result (option value * Command) :=
  if _should_convert self.(_decoded_request) self.(_encoded_request)
  then
    obj <- parse_attribute self.(_definition).(request) self.(_encoded_request) ;;
    let self := set_decoded_request self (Some obj) in
    Ok (self.(_decoded_request), self)
  else Ok (self.(_decoded_request), self).

(** [_parse_error] *)
Definition _parse_error (self : Command) : result (option CommandException) :=
  parsed <- parse_attribute self.(_definition).(status) self.(_encoded_response) ;;
  attr <- match parsed with
          | VDict items =>
              match lookup "errcode" items with
              | Some v => Ok v
              | None => Raise (KeyError "errcode")
              end
          | _ => Raise TypeError
          end ;;
  errcode <- int attr ;;
  if errcode <? 0
  then Ok (Some (mkCommandException
                   (kind_name self.(_definition).(opcode) ++ " failed with code "
                    ++ str_of_int errcode)))
  else Ok None.

Definition decoded_response (self : Command)
  : result (option response_object * Command) :=
  if _should_convert self.(_decoded_response) self.(_encoded_response)
  then
    failure <- _parse_error self ;;
    obj <- match failure with
           | Some exc => Ok (Failed exc)         (* [or] stops at a true object *)
           | None =>
               fields <- parse_attribute self.(_definition).(response)
                                         self.(_encoded_response) ;;
               Ok (Parsed fields)
           end ;;
    let self := set_decoded_response self (Some obj) in
    Ok (self.(_decoded_response), self)
  else Ok (self.(_decoded_response), self).

(* ------------------------------------------------------------------ *)
(** ** The loops of the interpreters, by name

    The repeaters of [parse] and [build] are local loops.  The definitions
    below are the same loops over an arbitrary subcon action; the equations
    that identify them hold by computation and let the proofs go by induction
    on the data. *)

Definition parse_until (predicate : value -> list value -> bool)
  (parse_sub : bytes -> result (value * bytes))
  : nat -> bytes -> list value -> result (value * bytes) :=
  fix loop (fuel : nat) (s : bytes) (obj : list value) : result (value * bytes) :=
    match fuel with
    | O => Raise StreamError
    | S fuel' =>
        '(subobj, rest) <- parse_sub s ;;
        let obj' := obj ++ [subobj] in
        if predicate subobj obj'
        then Ok (VList obj', rest)
        else loop fuel' rest obj'
    end.

Definition parse_greedy (parse_sub : bytes -> result (value * bytes))
  : nat -> bytes -> list value * bytes :=
  fix loop (fuel : nat) (s : bytes) : list value * bytes :=
    match fuel with
    | O => ([], s)
    | S fuel' =>
        match parse_sub s with
        | Raise _ => ([], s)
        | Ok (subobj, rest) =>
            let '(more, rest') := loop fuel' rest in
            (subobj :: more, rest')
        end
    end.

Definition build_until (predicate : value -> list value -> bool)
  (build_sub : value -> result bytes)
  : list value -> list value -> result bytes :=
  fix loop (l : list value) (seen : list value) : result bytes :=
    match l with
    | [] => Raise RepeatError
    | subobj :: others =>
        data <- build_sub subobj ;;
        if predicate subobj (seen ++ [subobj])
        then Ok data
        else
          more <- loop others (seen ++ [subobj]) ;;
          Ok (data ++ more)
    end.

Definition build_each (build_sub : value -> result bytes)
  : list value -> result bytes :=
  fix each (l : list value) : result bytes :=
    match l with
    | [] => Ok []
    | subobj :: others =>
        data <- build_sub subobj ;;
        more <- each others ;;
        Ok (data ++ more)
    end.

(** The value of a signed byte, as [Int8sb] reads it. *)
Definition signed (b : Z) : Z := if b <? 128 then b else b - 256.

(** The bytes [VariableLengthIDAdapter] writes for a path of integers. *)
Definition id_bytes (path : list Z) : bytes :=
  map (fun b => Z.lor b 128) (removelast path) ++ [last path 0].

(** The definition the registry holds for a kind, if any. *)
Definition definition_of (k : CommandKind) : option CommandDefinition :=
  lookup (kind_name k) COMMAND_DEFS.

Definition registered (k : CommandKind) : bool :=
  match definition_of k with
  | Some _ => true
  | None => false
  end.

(* ------------------------------------------------------------------ *)
(** ** communication.py: the stream framer, the conduit and discovery

    Only the tests of this module are among the sources, so its functions are
    written down from the design text (sections 4.4 and 4.5). *)

Module communication.

Local Open Scope string_scope.

Definition newline : ascii := "010"%char.

(** Modelled from the spec: the body of an event after its opening ["<!"] is
    missing from the sources; it is "zero or more characters other than [<]"
    up to the first [>].  Returns the inner text and what follows the
    match. *)
Fixpoint scan_event (s : string) : option (string * string) :=
  match s with
  | EmptyString => None
  | String c rest =>
      if Ascii.eqb c ">"%char then Some (EmptyString, rest)
      else if Ascii.eqb c "<"%char then None
      else match scan_event rest with
           | Some (inner, after) => Some (String c inner, after)
           | None => None
           end
  end.

(** Modelled from the spec: the search of the event pass is missing from the
    sources; it finds the leftmost shortest run ["<!" ... ">"], removes it
    and splices the text before and after it.  Returns the inner text and
    the spliced buffer. *)
Fixpoint remove_first_event (s : string) : option (string * string) :=
  match s with
  | EmptyString => None
  | String c rest =>
      let here :=
        if Ascii.eqb c "<"%char
        then match rest with
             | String bang rest' =>
                 if Ascii.eqb bang "!"%char then scan_event rest' else None
             | EmptyString => None
             end
        else None in
      match here with
      | Some found => Some found
      | None =>
          match remove_first_event rest with
          | Some (event, rest') => Some (event, String c rest')
          | None => None
          end
      end
  end.

(** Modelled from the spec: the event pass is missing from the sources; it
    re-scans after every removal until no match remains.  Every removal
    shortens the buffer, so its length bounds the number of rounds. *)
Fixpoint event_loop (fuel : nat) (buffer : string) : list string * string :=
  match fuel with
  | O => ([], buffer)
  | S fuel' =>
      match remove_first_event buffer with
      | None => ([], buffer)
      | Some (event, buffer') =>
          let '(events, rest) := event_loop fuel' buffer' in
          (event :: events, rest)
      end
  end.

Definition event_pass (buffer : string) : list string * string :=
  event_loop (String.length buffer) buffer.

(** Modelled from the spec: the tag pattern of the line pass is missing from
    the sources; a tag is [<], characters other than [<] and [>], then [>].
    Given the text after a [<], returns the number of characters up to and
    including the closing [>]. *)
Fixpoint tag_length (s : string) : option nat :=
  match s with
  | EmptyString => None
  | String c rest =>
      if Ascii.eqb c ">"%char then Some 1%nat
      else if Ascii.eqb c "<"%char then None
      else option_map S (tag_length rest)
  end.

(** Modelled from the spec: the stripping of tags from a line is missing from
    the sources; every bracketed tag is dropped with its delimiters, left to
    right.  [skip] counts the characters of a tag still to drop. *)
Fixpoint strip_tags (skip : nat) (s : string) : string :=
  match s with
  | EmptyString => EmptyString
  | String c rest =>
      match skip with
      | S skip' => strip_tags skip' rest
      | O =>
          if Ascii.eqb c "<"%char
          then match tag_length rest with
               | Some n => strip_tags n rest
               | None => String c (strip_tags O rest)
               end
          else String c (strip_tags O rest)
      end
  end.

(** Modelled from the spec: the cutting of the buffer into lines is missing
    from the sources; returns the complete lines, without their newline, and
    the trailing partial line. *)
Fixpoint split_lines (s : string) : list string * string :=
  match s with
  | EmptyString => ([], EmptyString)
  | String c rest =>
      let '(lines, partial) := split_lines rest in
      if Ascii.eqb c newline then (EmptyString :: lines, partial)
      else match lines with
           | [] => ([], String c partial)
           | line :: others => (String c line :: others, partial)
           end
  end.

Definition nonempty (s : string) : bool :=
  match s with
  | EmptyString => false
  | String _ _ => true
  end.

(** Modelled from the spec: the line pass is missing from the sources; each
    complete line is stripped of its tags and emitted if anything is left;
    the partial line stays in the buffer. *)
Definition line_pass (buffer : string) : list string * string :=
  let '(lines, partial) := split_lines buffer in
  (filter nonempty (map (strip_tags O) lines), partial).

(** Modelled from the spec: [SparkProtocol.data_received] is missing from the
    sources; new bytes are appended to the buffer, then the event pass and
    the line pass run in this order.  Returns the events, the data lines and
    the buffer that is left. *)
Definition data_received (buffer : string) (chunk : string)
  : list string * list string * string :=
  let '(events, after_events) := event_pass (buffer ++ chunk) in
  let '(data, after_lines) := line_pass after_events in
  (events, data, after_lines).

(** The collector of the tests: one queue of events, one of data. *)
Record Collector : Type := {
  events : list string;
  data : list string
}.

(** [_send_chunks]: [data_received] on every chunk, in order, the callbacks
    putting what is emitted into the collector. *)
Fixpoint _send_chunks (buffer : string) (coll : Collector) (chunks : list string)
  : string * Collector :=
  match chunks with
  | [] => (buffer, coll)
  | chunk :: others =>
      let '(ev, da, buffer') := data_received buffer chunk in
      _send_chunks buffer'
        {| events := coll.(events) ++ ev; data := coll.(data) ++ da |} others
  end.

(** The byte chunks of the framing property (section 8), in order. *)
Definition serial_data : list string :=
  ["<add>0A<id>00<OneWir";
   "<!connected:sen";
   "sor>eTem<!s";
   "paced message>pSensor>01<address>28C80E";
   String.append "9A0300009C" (String newline EmptyString);
   "34234<!connected:mess<!interrupt>";
   String.append "age>" (String newline EmptyString);
   "<!interrupted! ";
   "message>";
   "<invalid! event!>"].

Definition expected_events : list string :=
  ["connected:sensor"; "spaced message"; "interrupt"; "connected:message";
   "interrupted! message"].

Definition expected_data : list string :=
  [String.append "0A" (String.append "00" (String.append "01" "28C80E9A0300009C"));
   "34234"].

(** Modelled from the spec: [SparkConduit] is missing from the sources; it is
    unbound at first and after [close], bound after a successful [bind];
    [written] is what has been handed to the transport. *)
Record SparkConduit : Type := {
  is_bound : bool;
  written : list string
}.

(** Modelled from the spec: the constructor of [SparkConduit] is missing from
    the sources; a new conduit is unbound and has written nothing. *)
Definition new_SparkConduit : SparkConduit :=
  {| is_bound := false; written := [] |}.

(** Modelled from the spec: [SparkConduit.bind] is missing from the sources;
    it moves to bound when the transport is acquired ([acquired]) and leaves
    the conduit as it was when that fails. *)
Definition bind_conduit (acquired : bool) (c : SparkConduit) : SparkConduit :=
  if acquired then {| is_bound := true; written := c.(written) |} else c.

(** Modelled from the spec: [SparkConduit.close] is missing from the sources;
    it releases the transport, and does nothing on an unbound conduit. *)
Definition close (c : SparkConduit) : SparkConduit :=
  {| is_bound := false; written := c.(written) |}.

(** Modelled from the spec: [SparkConduit.write] is missing from the sources;
    it is permitted only while bound, where it sends the text followed by one
    newline; while unbound the contract check fails (the test expects an
    [AssertionError]). *)
Definition write (c : SparkConduit) (text : string) : result SparkConduit :=
  if c.(is_bound)
  then Ok {| is_bound := true;
             written := c.(written) ++ [String.append text (String newline EmptyString)] |}
  else Raise AssertionError.

(** What a caller may do with a conduit. *)
Inductive call : Type :=
| Bind (acquired : bool)
| Close
| Write (text : string).

(** One call; a call that raises leaves the conduit as it was. *)
Definition step (c : SparkConduit) (op : call) : SparkConduit :=
  match op with
  | Bind acquired => bind_conduit acquired c
  | Close => close c
  | Write text =>
      match write c text with
      | Ok c' => c'
      | Raise _ => c
      end
  end.

Definition run (ops : list call) (c : SparkConduit) : SparkConduit :=
  fold_left step ops c.

Definition successful_bind (op : call) : bool :=
  match op with
  | Bind true => true
  | _ => false
  end.

(** The port description of the tests. *)
Record DummyPortInfo : Type := {
  device : string;
  description : string;
  hwid : string;
  serial_number : string
}.

(** Modelled from the spec: [detect_device] is missing from the sources; an
    explicit device is returned unchanged; otherwise the recognized ports are
    filtered by serial number if one is given, an empty result fails (the
    test expects a [ValueError]) and the first port's device is returned. *)
Definition detect_device (recognized : list DummyPortInfo)
  (explicit : option string) (serial : option string) : result string :=
  match explicit with
  | Some path => Ok path
  | None =>
      let ports :=
        match serial with
        | Some wanted =>
            filter (fun p => String.eqb p.(serial_number) wanted) recognized
        | None => recognized
        end in
      match ports with
      | [] => Raise ValueError
      | p :: _ => Ok p.(device)
      end
  end.

(** The ports [grep_ports_mock] answers with. *)
Definition dummy_0 : DummyPortInfo :=
  {| device := "/dev/ttyX"; description := "Electron";
     hwid := "USB VID:PID=2d04:c00a"; serial_number := "1234" |}.

Definition dummy_1 : DummyPortInfo :=
  {| device := "/dev/ttyX"; description := "Electron";
     hwid := "USB VID:PID=2d04:c00a"; serial_number := "4321" |}.

Definition dummy : list DummyPortInfo := [dummy_0; dummy_1].

End communication.

(* ------------------------------------------------------------------ *)
(** ** Checks over the byte range, used by the proofs *)

Definition flag_low_check (b : Z) : bool :=
  (127 <? b)
  || ((Z.land b 128 =? 0) && (Z.land b 127 =? b)
      && (Z.land (Z.lor b 128) 127 =? b)
      && (Z.land (Z.lor b 128) 128 =? 128)
      && (Z.lor b 128 =? b + 128)).

Definition flag_high_check (b : Z) : bool :=
  (b <? 128)
  || ((Z.lor b 128 =? b) && negb (Z.land b 128 =? 0)
      && (Z.land b 127 =? b - 128)).

(** The member loop of [Struct] parsing, by name. *)
Definition parse_members
  : list (option string * Construct) -> bytes -> result (list (string * value) * bytes) :=
  fix each (l : list (option string * Construct)) (s : bytes)
    : result (list (string * value) * bytes) :=
    match l with
    | [] => Ok ([], s)
    | (name, sc) :: others =>
        '(subobj, rest) <- parse sc s ;;
        '(more, rest') <- each others rest ;;
        match name with
        | Some n => Ok ((n, subobj) :: more, rest')
        | None => Ok (more, rest')
        end
    end.

(** The member loop of [Struct] building, by name. *)
Definition build_members (items : list (string * value))
  : list (option string * Construct) -> result bytes :=
  fix each (l : list (option string * Construct)) : result bytes :=
    match l with
    | [] => Ok []
    | (name, sc) :: others =>
        let found := match name with
                     | Some n => lookup n items
                     | None => None
                     end in
        subobj <- match found with
                  | Some v => Ok v
                  | None =>
                      if flagbuildnone sc then Ok VNone
                      else Raise (KeyError match name with
                                           | Some n => n
                                           | None => "None"%string
                                           end)
                  end ;;
        data <- build sc subobj ;;
        more <- each others ;;
        Ok (data ++ more)
    end.

(** The layouts the registry holds for a kind (the empty Struct when it
    holds none). *)
Definition request_of (k : CommandKind) : Construct :=
  match definition_of k with
  | Some d => d.(request)
  | None => Struct []
  end.

Definition response_of (k : CommandKind) : Construct :=
  match definition_of k with
  | Some d => d.(response)
  | None => Struct []
  end.

(** The record of a listed object, as LIST_OBJECTS declares it. *)
Definition OBJECT_RECORD : Construct :=
  OBJECT_ID +++ OBJECT_TYPE +++ OBJECT_SIZE +++ OBJECT_DATA.

(** The object [ErrorcodeEnum] reads from one byte: the label of a known
    code, the bare integer otherwise. *)
Definition errcode_of (b : Z) : value :=
  match parse ErrorcodeEnum [b] with
  | Ok (v, _) => v
  | Raise _ => VNone
  end.

(** One listed object, and a LIST_OBJECTS response that carries it. *)
Definition listed_object : value :=
  VDict [("id"%string, VList [VInt 1]);
         ("type"%string, VInt 2);
         ("size"%string, VInt 3);
         ("data"%string, VList [VInt 4; VInt 5])].

Definition listing : value :=
  VDict [("errcode"%string, VLabel "OK" 0);
         ("objects"%string, VList [listed_object]);
         ("terminator"%string, VInt 0)].

(** A LOG_VALUES request that names an object. *)
Definition log_request : value :=
  VDict [("flags"%string,
          VDict [("id_chain"%string, VBool true);
                 ("system_container"%string, VBool false);
                 ("default"%string, VBool true)]);
         ("id"%string, VList [VInt 1; VInt 2])].

(* ------------------------------------------------------------------ *)
(** ** Round trips: the vocabulary of the statements *)

(** [c] writes [obj] as [data] and reads it back from the front of any
    stream that starts with [data]. *)
Definition rt (c : Construct) (obj : value) (data : bytes) : Prop :=
  build c obj = Ok data /\ forall rest, parse c (data ++ rest) = Ok (obj, rest).

(** The same at the end of the stream only, for a member that reads all
    that is left. *)
Definition rt_end (c : Construct) (obj : value) (data : bytes) : Prop :=
  build c obj = Ok data /\ parse c data = Ok (obj, []).

(** The members of a Struct, all named, each writing and reading back its
    own item of the Container [all]; only the last may be of the kind that
    reads to the end. *)
Inductive layout_rt (all : list (string * value))
  : list (option string * Construct) -> list (string * value) -> bytes -> Prop :=
| lrt_nil : layout_rt all [] [] []
| lrt_cons (name : string) (c : Construct) (v : value) (d : bytes)
    (ms : list (option string * Construct)) (its : list (string * value)) (ds : bytes) :
    lookup name all = Some v ->
    rt c v d ->
    layout_rt all ms its ds ->
    layout_rt all ((Some name, c) :: ms) ((name, v) :: its) (d ++ ds)
| lrt_last (name : string) (c : Construct) (v : value) (d : bytes) :
    lookup name all = Some v ->
    rt_end c v d ->
    layout_rt all [(Some name, c)] [(name, v)] d.

(** A list of integers as an object. *)
Definition ints (l : list Z) : value := VList (map VInt l).

(** An object path: not empty, every entry in 0..127. *)
Definition is_path (path : list Z) : Prop :=
  path <> [] /\ Forall (fun b => 0 <= b <= 127) path.

Definition is_sbyte (n : Z) : Prop := -128 <= n <= 127.

(** The byte of a signed value, as [Int8sb] writes it. *)
Definition sbyte (n : Z) : Z := if n <? 0 then n + 256 else n.

(** A status that is not negative. *)
Definition is_status (st : Z) : Prop := 0 <= st <= 127.

Definition errcode_check (b : Z) : bool :=
  (127 <? b)
  || match build ErrorcodeEnum (errcode_of b) with
     | Ok [x] => x =? b
     | _ => false
     end.

Definition sbyte_check (b : Z) : bool :=
  (let n := signed b in
   match pack_b (VInt n) with
   | Ok [x] => x =? b
   | _ => false
   end).


(** The field mappings of the responses with a status that is not
    negative.  The two list responses are listed with no object. *)
Inductive conforming_response : CommandKind -> value -> Prop :=
| response_type_size_data (k : CommandKind) (st type size : Z) (data : bytes) :
    In k [READ_VALUE; WRITE_VALUE; READ_SYSTEM_VALUE; WRITE_SYSTEM_VALUE] ->
    is_status st -> is_byte type -> is_byte size -> Forall is_byte data ->
    conforming_response k
      (VDict [("errcode"%string, errcode_of st);
              ("type"%string, VInt type);
              ("size"%string, VInt size);
              ("data"%string, ints data)])
| response_status_only (k : CommandKind) (st : Z) :
    In k [CREATE_OBJECT; DELETE_OBJECT; FREE_SLOT; DELETE_PROFILE;
          ACTIVATE_PROFILE; RESET; FREE_SLOT_ROOT] ->
    is_status st ->
    conforming_response k (VDict [("errcode"%string, errcode_of st)])
| response_profile_id (st profile : Z) :
    is_status st -> is_sbyte profile ->
    conforming_response CREATE_PROFILE
      (VDict [("errcode"%string, errcode_of st);
              ("profile_id"%string, VInt profile)])
| response_profiles (st profile defined : Z) :
    is_status st -> is_sbyte profile -> is_byte defined ->
    conforming_response LIST_PROFILES
      (VDict [("errcode"%string, errcode_of st);
              ("profile_id"%string, VInt profile);
              ("defined_profiles"%string, VList [VInt defined])])
| response_no_object (k : CommandKind) (st : Z) :
    In k [LIST_OBJECTS; LOG_VALUES] ->
    is_status st ->
    conforming_response k
      (VDict [("errcode"%string, errcode_of st);
              ("objects"%string, VNone);
              ("terminator"%string, VInt 0)]).


Definition response_round_trip (k : CommandKind) (fields : value) : Prop :=
  exists definition encoded,
    definition_of k = Some definition
    /\ ('(e, _) <- encoded_response
                     (new_Command definition (None, None) (None, Some (Parsed fields))) ;;
        Ok e) = Ok (Some encoded)
    /\ forall tail,
         (c <- from_encoded (Some (encmapping k :: tail)) (Some encoded) ;;
          '(d, _) <- decoded_response c ;;
          Ok d) = Ok (Some (Parsed fields)).

(** Checks over the byte range for the two enums: what a byte is read to
    has the byte's value as its [int] and is written back as that byte. *)
Definition errcode_byte_check (b : Z) : bool :=
  match parse ErrorcodeEnum [b] with
  | Ok (v, []) =>
      match int v, build ErrorcodeEnum v with
      | Ok n, Ok [x] => (n =? signed b) && (x =? b)
      | _, _ => false
      end
  | _ => false
  end.

Definition opcode_byte_check (b : Z) : bool :=
  match parse OpcodeEnum [b] with
  | Ok (v, []) =>
      match int v, build OpcodeEnum v with
      | Ok n, Ok [x] => (n =? b) && (x =? b)
      | _, _ => false
      end
  | _ => false
  end.


(** The record of a logged object, as LOG_VALUES declares it. *)
Definition LOGGED_RECORD : Construct :=
  Padding 1 +++ OBJECT_ID +++ OBJECT_TYPE +++ OBJECT_SIZE +++ OBJECT_DATA.

(* ------------------------------------------------------------------ *)
(** * Properties *)

(** ** Bytes and bits *)

(** A boolean property checked on the 256 byte values holds of every byte. *)
Lemma byte_cases (P : Z -> bool) :
  forallb P (map Z.of_nat (seq 0 256)) = true ->
  forall b, 0 <= b <= 255 -> P b = true.
Proof.
  intros Hall b Hb.
  rewrite forallb_forall in Hall.
  apply Hall, in_map_iff.
  exists (Z.to_nat b); split; [lia | apply in_seq; lia].
Qed.

Lemma land_128_cases (x : Z) : Z.land x 128 = 0 \/ Z.land x 128 = 128.
Proof.
  destruct (Z.testbit x 7) eqn:E; [right | left];
    apply Z.bits_inj'; intros n Hn; rewrite Z.land_spec;
    change 128 with (2 ^ 7); rewrite !Z.pow2_bits_eqb by lia;
    destruct (Z.eqb_spec 7 n) as [<- | Hne];
    rewrite ?E, ?andb_false_r, ?Z.bits_0; reflexivity.
Qed.

Lemma lor_128_bounds (x : Z) : x <= Z.lor x 128 <= x + 128.
Proof.
  pose proof (Z.add_lor_land x 128).
  destruct (land_128_cases x); lia.
Qed.

Lemma flag_low (b : Z) :
  0 <= b <= 127 ->
  Z.land b 128 = 0 /\ Z.land b 127 = b /\ Z.land (Z.lor b 128) 127 = b
  /\ Z.land (Z.lor b 128) 128 = 128 /\ Z.lor b 128 = b + 128.
Proof.
  intros Hb.
  assert (H : flag_low_check b = true).
  { apply byte_cases; [vm_compute; reflexivity | lia]. }
  unfold flag_low_check in H.
  rewrite orb_true_iff, !andb_true_iff, !Z.eqb_eq, Z.ltb_lt in H.
  destruct H as [H | H]; [lia | tauto].
Qed.

Lemma flag_high (b : Z) :
  128 <= b <= 255 ->
  Z.lor b 128 = b /\ Z.land b 128 <> 0 /\ Z.land b 127 = b - 128.
Proof.
  intros Hb.
  assert (H : flag_high_check b = true).
  { apply byte_cases; [vm_compute; reflexivity | lia]. }
  unfold flag_high_check in H.
  rewrite orb_true_iff, !andb_true_iff, negb_true_iff, !Z.eqb_eq, Z.eqb_neq, Z.ltb_lt in H.
  destruct H as [H | H]; [lia | tauto].
Qed.

Lemma land_lor_128 (b : Z) : Z.land (Z.lor b 128) 128 = 128.
Proof.
  rewrite Z.land_lor_distr_l.
  destruct (land_128_cases b) as [-> | ->]; reflexivity.
Qed.

Lemma lor_128_is_byte (b : Z) : is_byte (Z.lor b 128) <-> is_byte b.
Proof.
  unfold is_byte; split; intros H.
  - pose proof (lor_128_bounds b).
    pose proof (proj1 (Z.lor_nonneg b 128)). lia.
  - destruct (Z_lt_le_dec b 128).
    + destruct (flag_low b) as (_ & _ & _ & _ & ->); lia.
    + destruct (flag_high b) as (-> & _); lia.
Qed.

Lemma no_flag_iff (x : Z) : is_byte x /\ Z.land x 128 = 0 <-> 0 <= x <= 127.
Proof.
  unfold is_byte; split.
  - intros [Hx H0]. destruct (Z_lt_le_dec x 128); [lia |].
    destruct (flag_high x) as (_ & Hne & _); [lia | contradiction].
  - intros Hx. destruct (flag_low x) as (H0 & _); [lia |]. split; [lia | exact H0].
Qed.

(** ** The interpreters on the loops *)

Lemma parse_RepeatUntil p c data :
  parse (RepeatUntil p c) data = parse_until p (parse c) (S (List.length data)) data [].
Proof. reflexivity. Qed.

Lemma build_RepeatUntil p c items :
  build (RepeatUntil p c) (VList items) = build_until p (build c) items [].
Proof. reflexivity. Qed.

Lemma parse_GreedyRange c data :
  parse (GreedyRange c) data =
  let '(obj, rest) := parse_greedy (parse c) (S (List.length data)) data in
  Ok (VList obj, rest).
Proof. reflexivity. Qed.

Lemma build_GreedyRange c items :
  build (GreedyRange c) (VList items) = build_each (build c) items.
Proof. reflexivity. Qed.

Lemma build_Byte_int (n : Z) :
  build Byte (VInt n) =
  if (0 <=? n) && (n <=? 255) then Ok [n] else Raise FormatFieldError.
Proof. reflexivity. Qed.

Lemma build_Byte_ok (n : Z) : is_byte n -> build Byte (VInt n) = Ok [n].
Proof.
  intros [H0 H1]. rewrite build_Byte_int.
  destruct (Z.leb_spec 0 n), (Z.leb_spec n 255); simpl; try lia; reflexivity.
Qed.

Lemma build_Byte_inv (n : Z) (d : bytes) :
  build Byte (VInt n) = Ok d -> is_byte n /\ d = [n].
Proof.
  rewrite build_Byte_int. unfold is_byte.
  destruct (Z.leb_spec 0 n), (Z.leb_spec n 255); simpl; intros Heq;
    inversion Heq; subst; split; try lia; reflexivity.
Qed.

(** ** VariableLengthIDAdapter *)

Lemma add_nesting_flags_ints (l : list Z) :
  add_nesting_flags (map VInt l) = Ok (map VInt (map (fun b => Z.lor b 128) l)).
Proof.
  induction l as [| b l IH]; simpl; [reflexivity |].
  rewrite IH. reflexivity.
Qed.

Lemma remove_nesting_flags_ints (l : list Z) :
  remove_nesting_flags (map VInt l) = Ok (map VInt (map (fun b => Z.land b 127) l)).
Proof.
  induction l as [| b l IH]; simpl; [reflexivity |].
  rewrite IH. reflexivity.
Qed.

Lemma removelast_map {A B : Type} (f : A -> B) (l : list A) :
  removelast (map f l) = map f (removelast l).
Proof.
  induction l as [| a [| a' l] IH]; simpl in *; [reflexivity | reflexivity |].
  rewrite IH. reflexivity.
Qed.

Lemma last_map {A B : Type} (f : A -> B) (l : list A) (d : A) (d' : B) :
  l <> [] -> last (map f l) d' = f (last l d).
Proof.
  induction l as [| a [| a' l] IH]; intros Hne; simpl in *;
    [congruence | reflexivity |].
  apply IH. discriminate.
Qed.

Lemma encode_ints (path : list Z) :
  path <> [] ->
  _encode (VList (map VInt path)) = Ok (VList (map VInt (id_bytes path))).
Proof.
  intros Hne. unfold _encode, id_bytes.
  rewrite removelast_map, add_nesting_flags_ints. simpl.
  destruct path as [| b path]; [congruence |].
  change (map VInt (b :: path)) with (VInt b :: map VInt path) at 1.
  cbv iota.
  rewrite (last_map VInt (b :: path) 0 VNone) by discriminate.
  rewrite map_app. reflexivity.
Qed.

Lemma encode_empty : _encode (VList []) = Raise IndexError.
Proof. reflexivity. Qed.

Lemma build_until_cons p build_sub x l seen :
  build_until p build_sub (x :: l) seen =
  (data <- build_sub x ;;
   if p x (seen ++ [x]) then Ok data
   else more <- build_until p build_sub l (seen ++ [x]) ;; Ok (data ++ more)).
Proof. reflexivity. Qed.

Lemma no_nesting_flag_int (b : Z) (lst : list value) :
  no_nesting_flag (VInt b) lst = (Z.land b 128 =? 0).
Proof. reflexivity. Qed.

(** Writing a list of bytes that all carry the flag, followed by one more. *)
Lemma build_until_flagged (fl : list Z) (x : Z) (seen : list value) (d : bytes) :
  Forall (fun b => Z.land b 128 = 128) fl ->
  build_until no_nesting_flag (build Byte) (map VInt (fl ++ [x])) seen = Ok d <->
  Forall is_byte fl /\ is_byte x /\ Z.land x 128 = 0 /\ d = fl ++ [x].
Proof.
  intros Hfl. revert seen d.
  induction Hfl as [| b fl Hb Hfl IH]; intros seen d;
    cbn [app map]; rewrite build_until_cons, no_nesting_flag_int.
  - split.
    + destruct (build Byte (VInt x)) as [dx |] eqn:E; cbn [bind]; [| discriminate].
      apply build_Byte_inv in E as [Hx Hdx]; subst dx.
      destruct (Z.eqb_spec (Z.land x 128) 0); [| discriminate].
      intros Heq; inversion Heq; subst. repeat split; auto; try (unfold is_byte in *; lia).
    + intros (_ & Hx & H0 & ->).
      rewrite (build_Byte_ok x Hx); cbn [bind]. rewrite H0. reflexivity.
  - rewrite Hb. change (128 =? 0) with false. cbv iota.
    split.
    + destruct (build Byte (VInt b)) as [db |] eqn:E; cbn [bind]; [| discriminate].
      apply build_Byte_inv in E as [Hbyte Hdb]; subst db.
      destruct (build_until _ _ _ _) as [more |] eqn:E'; cbn [bind]; [| discriminate].
      apply IH in E' as (Hall & Hx & H0 & Hmore); subst more.
      intros Heq; inversion Heq; subst. repeat split; auto; try (unfold is_byte in *; lia).
    + intros (Hall & Hx & H0 & ->). inversion Hall; subst.
      rewrite build_Byte_ok by assumption. cbn [bind].
      rewrite (proj2 (IH (seen ++ [VInt b]) (fl ++ [x]))) by (repeat split; auto; unfold is_byte in *; lia).
      reflexivity.
Qed.

(** What [VariableLengthIDAdapter] builds from a list of integers, and when. *)
Lemma build_id_iff (path : list Z) (d : bytes) :
  build VariableLengthIDAdapter (VList (map VInt path)) = Ok d <->
  path <> [] /\ Forall is_byte (removelast path) /\ 0 <= last path 0 <= 127
  /\ d = id_bytes path.
Proof.
  destruct path as [| b0 path0] eqn:Epath.
  { split; [intros H; vm_compute in H; discriminate | intros [H _]; congruence]. }
  rewrite <- Epath.
  assert (Hne : path <> []) by (subst; discriminate).
  unfold VariableLengthIDAdapter.
  change (build (Adapter _encode _decode (RepeatUntil no_nesting_flag Byte))
                (VList (map VInt path)))
    with (obj' <- _encode (VList (map VInt path)) ;;
          build (RepeatUntil no_nesting_flag Byte) obj').
  rewrite encode_ints by assumption. cbn [bind].
  rewrite build_RepeatUntil. unfold id_bytes.
  rewrite build_until_flagged.
  - rewrite Forall_map.
    split.
    + intros (Hall & Hx & H0 & ->).
      split; [assumption |]. split; [| split; [| reflexivity]].
      * eapply Forall_impl; [| exact Hall]. intros a; apply lor_128_is_byte.
      * apply no_flag_iff; auto.
    + intros (_ & Hall & Hx & ->). apply no_flag_iff in Hx as [Hx H0].
      split; [| split; [assumption | split; [assumption | reflexivity]]].
      eapply Forall_impl; [| exact Hall]. intros a; apply lor_128_is_byte.
  - rewrite Forall_map. apply Forall_forall. intros a _. apply land_lor_128.
Qed.

(** Reading back a list of flagged bytes followed by one without the flag. *)
Lemma parse_until_flagged (fl : list Z) (x : Z) (rest : bytes) :
  Forall (fun b => Z.land b 128 = 128) fl ->
  Z.land x 128 = 0 ->
  forall (fuel : nat) (acc : list value),
    (List.length fl < fuel)%nat ->
    parse_until no_nesting_flag (parse Byte) fuel (fl ++ x :: rest) acc =
    Ok (VList (acc ++ map VInt (fl ++ [x])), rest).
Proof.
  intros Hfl Hx.
  induction Hfl as [| b fl Hb Hfl IH]; intros fuel acc Hfuel;
    (destruct fuel as [| fuel]; [simpl in Hfuel; lia |]).
  - simpl. unfold no_nesting_flag; simpl. rewrite Hx. reflexivity.
  - simpl. unfold no_nesting_flag at 1; simpl. rewrite Hb. simpl.
    rewrite IH by (simpl in Hfuel; lia).
    rewrite <- app_assoc. reflexivity.
Qed.

(** Reading back what was written for a path whose last entry has no flag:
    every entry comes back without its flag bit. *)
Lemma parse_id_bytes_masked (path : list Z) (rest : bytes) :
  path <> [] ->
  0 <= last path 0 <= 127 ->
  parse VariableLengthIDAdapter (id_bytes path ++ rest) =
  Ok (VList (map VInt (map (fun b => Z.land b 127) path)), rest).
Proof.
  intros Hne Hlast.
  unfold VariableLengthIDAdapter.
  change (parse (Adapter _encode _decode (RepeatUntil no_nesting_flag Byte))
                (id_bytes path ++ rest))
    with ('(obj, rest') <- parse (RepeatUntil no_nesting_flag Byte)
                                 (id_bytes path ++ rest) ;;
          obj' <- _decode obj ;;
          Ok (obj', rest')).
  rewrite parse_RepeatUntil. unfold id_bytes.
  rewrite <- app_assoc. cbn [app].
  pose proof (app_removelast_last 0 Hne) as Hsplit.
  rewrite parse_until_flagged.
  - cbn [bind app]. unfold _decode.
    rewrite remove_nesting_flags_ints. cbn [bind].
    f_equal. f_equal. f_equal. f_equal.
    rewrite map_app, map_map. cbn [map].
    destruct (flag_low _ Hlast) as (_ & -> & _).
    rewrite Hsplit at 3. rewrite map_app. cbn [map].
    destruct (flag_low _ Hlast) as (_ & -> & _).
    f_equal. apply map_ext. intros a.
    rewrite Z.land_lor_distr_l. change (Z.land 128 127) with 0.
    rewrite Z.lor_0_r. reflexivity.
  - rewrite Forall_map. apply Forall_forall. intros a _. apply land_lor_128.
  - apply flag_low; assumption.
  - rewrite !length_app, length_map. simpl. lia.
Qed.

Lemma parse_id_bytes (path : list Z) (rest : bytes) :
  path <> [] ->
  Forall (fun b => 0 <= b <= 127) path ->
  parse VariableLengthIDAdapter (id_bytes path ++ rest) =
  Ok (VList (map VInt path), rest).
Proof.
  intros Hne Hall.
  pose proof (app_removelast_last 0 Hne) as Hsplit.
  assert (Hlast : 0 <= last path 0 <= 127).
  { rewrite Hsplit in Hall. apply Forall_app in Hall as [_ H].
    inversion H; assumption. }
  rewrite parse_id_bytes_masked by assumption.
  replace (map (fun b => Z.land b 127) path) with path; [reflexivity |].
  rewrite <- (map_id path) at 1.
  apply map_ext_in. intros a Ha.
  rewrite Forall_forall in Hall.
  destruct (flag_low a (Hall a Ha)) as (_ & -> & _). reflexivity.
Qed.

(** C2: for a non-empty sequence of integers in 0..127, the adapter builds
    the bytes [id_bytes path], and parsing those bytes (whatever follows
    them) gives back the sequence, in order. *)
Theorem VariableLengthID_roundtrip (path : list Z) :
  path <> [] ->
  Forall (fun b => 0 <= b <= 127) path ->
  build VariableLengthIDAdapter (VList (map VInt path)) = Ok (id_bytes path)
  /\ parse_bytes VariableLengthIDAdapter (id_bytes path) = Ok (VList (map VInt path))
  /\ forall rest,
       parse VariableLengthIDAdapter (id_bytes path ++ rest) =
       Ok (VList (map VInt path), rest).
Proof.
  intros Hne Hall.
  pose proof (app_removelast_last 0 Hne) as Hsplit.
  assert (Hparts : Forall (fun b => 0 <= b <= 127) (removelast path)
                   /\ 0 <= last path 0 <= 127).
  { rewrite Hsplit in Hall. apply Forall_app in Hall as [Hi Hl].
    inversion Hl; subst. split; assumption. }
  destruct Hparts as [Hinit Hlast].
  split; [| split].
  - apply build_id_iff. repeat split; auto; try lia.
    eapply Forall_impl; [| exact Hinit]. unfold is_byte. intros a Ha; lia.
  - unfold parse_bytes.
    rewrite <- (app_nil_r (id_bytes path)).
    rewrite parse_id_bytes by assumption. reflexivity.
  - intros rest. apply parse_id_bytes; assumption.
Qed.

Lemma VariableLengthID_roundtrip_witness :
  build VariableLengthIDAdapter (VList (map VInt [3; 7])) = Ok [131; 7]
  /\ parse_bytes VariableLengthIDAdapter [131; 7] = Ok (VList (map VInt [3; 7])).
Proof.
  destruct (VariableLengthID_roundtrip [3; 7]) as (Hb & Hp & _).
  - discriminate.
  - repeat constructor; lia.
  - split; [exact Hb | exact Hp].
Defined.

Lemma is_byte_dec (b : Z) : {is_byte b} + {~ is_byte b}.
Proof.
  unfold is_byte.
  destruct (Z_le_dec 0 b), (Z_le_dec b 255); [left | right | right | right]; lia.
Defined.

(** C6, as the code has it: building a VariableLengthId from a list of
    integers raises exactly when the list is empty, or a value before the
    last lies outside 0..255, or the last value lies outside 0..127.  When it
    does not raise, every value before the last is written with the flag bit
    set, so a value in 128..255 is written as it is, and every value reads
    back without that bit: 128..255 come back 128 less. *)
Theorem VariableLengthID_encode_raises (path : list Z) :
  ((exists e, build VariableLengthIDAdapter (VList (map VInt path)) = Raise e) <->
   path = []
   \/ Exists (fun b => b < 0 \/ 255 < b) (removelast path)
   \/ last path 0 < 0 \/ 127 < last path 0)
  /\ (forall data,
        build VariableLengthIDAdapter (VList (map VInt path)) = Ok data ->
        data = map (fun b => Z.lor b 128) (removelast path) ++ [last path 0]
        /\ parse_bytes VariableLengthIDAdapter data =
           Ok (VList (map VInt (map (fun b => Z.land b 127) path)))).
Proof.
  split; [split |].
  - intros [e He].
    destruct path as [| b0 path0] eqn:Epath; [left; reflexivity | right].
    rewrite <- Epath in *.
    destruct (Forall_Exists_dec is_byte is_byte_dec (removelast path)) as [Hall | Hex].
    + destruct (Z_lt_dec (last path 0) 0); [right; left; assumption |].
      destruct (Z_lt_dec 127 (last path 0)); [right; right; assumption |].
      exfalso.
      assert (Hok : build VariableLengthIDAdapter (VList (map VInt path))
                    = Ok (id_bytes path)).
      { apply build_id_iff. repeat split; auto; try lia. subst; discriminate. }
      congruence.
    + left. eapply Exists_impl; [| exact Hex].
      unfold is_byte. intros a Ha. lia.
  - intros Hbad.
    destruct (build VariableLengthIDAdapter (VList (map VInt path))) as [d | e] eqn:E;
      [| exists e; reflexivity].
    exfalso. apply build_id_iff in E as (Hne & Hall & Hlast & _).
    destruct Hbad as [Hnil | [Hex | Hl]]; [congruence | | lia].
    rewrite Forall_forall in Hall. apply Exists_exists in Hex as (a & Ha & Hout).
    specialize (Hall a Ha). unfold is_byte in Hall. lia.
  - intros data Hdata.
    apply build_id_iff in Hdata as (Hne & _ & Hlast & ->).
    split; [reflexivity |].
    unfold parse_bytes. rewrite <- (app_nil_r (id_bytes path)).
    rewrite parse_id_bytes_masked by assumption. reflexivity.
Qed.

Lemma VariableLengthID_encode_raises_witness :
  parse_bytes VariableLengthIDAdapter [200; 5] = Ok (VList [VInt 72; VInt 5]).
Proof.
  destruct (VariableLengthID_encode_raises [200; 5]) as [_ Hok].
  destruct (Hok [200; 5]) as [_ Hparse]; [reflexivity |].
  exact Hparse.
Defined.

(** C6 fails on the code: the value 200 is outside 0..127, yet the sequence
    [200; 5] is built without an error, into bytes that read back as
    [72; 5]. *)
Lemma VariableLengthID_encode_out_of_range_accepted :
  ~ (0 <= 200 <= 127)
  /\ build VariableLengthIDAdapter (VList [VInt 200; VInt 5]) = Ok [200; 5]
  /\ parse_bytes VariableLengthIDAdapter [200; 5] = Ok (VList [VInt 72; VInt 5]).
Proof.
  split; [lia |]. split; reflexivity.
Qed.

(** ** Command.decoded_response *)

Lemma parse_Enum_Int8sb (mapping : list (string * Z)) (b : Z) (rest : bytes) :
  parse (Enum Int8sb mapping) (b :: rest) =
  match label_of (signed b) mapping with
  | Some name => Ok (VLabel name (signed b), rest)
  | None => Ok (VInt (signed b), rest)
  end.
Proof. reflexivity. Qed.

Lemma parse_Struct_single (name : string) (c : Construct) (data : bytes) :
  parse (Struct [named name c]) data =
  ('(subobj, rest) <- parse c data ;; Ok (VDict [(name, subobj)], rest)).
Proof.
  cbn [parse named]. destruct (parse c data) as [[v r] |]; reflexivity.
Qed.

(** The status layout reads the first byte as a signed integer, whatever
    follows it; [int] of the error code is that integer, known label or not. *)
Lemma parse_status (b : Z) (rest : bytes) :
  exists v,
    parse_bytes (Struct [named "errcode" ErrorcodeEnum]) (b :: rest)
    = Ok (VDict [("errcode"%string, v)])
    /\ int v = Ok (signed b).
Proof.
  unfold parse_bytes.
  rewrite parse_Struct_single. unfold ErrorcodeEnum.
  rewrite parse_Enum_Int8sb.
  destruct (label_of (signed b) _) as [name |];
    [exists (VLabel name (signed b)) | exists (VInt (signed b))];
    split; reflexivity.
Qed.

Lemma parse_error_code (d : CommandDefinition)
  (encoded_req : option bytes) (decoded : option value * option response_object)
  (b : Z) (rest : bytes) :
  d.(status) = Struct [named "errcode" ErrorcodeEnum] ->
  _parse_error (new_Command d (encoded_req, Some (b :: rest)) decoded) =
  if signed b <? 0
  then Ok (Some (mkCommandException
                   (kind_name d.(opcode) ++ " failed with code "
                    ++ str_of_int (signed b))))
  else Ok None.
Proof.
  intros Hstatus. unfold _parse_error, new_Command.
  cbn [_definition _encoded_response snd parse_attribute].
  rewrite Hstatus.
  destruct (parse_status b rest) as (v & -> & Hint).
  cbn [bind lookup String.eqb Ascii.eqb Bool.eqb].
  rewrite Hint. reflexivity.
Qed.

(** C3: when the first byte of the encoded response is negative as a signed
    byte, [decoded_response] hands back (and caches) a [CommandException]
    whose message carries the command kind and that number; this holds for
    every response layout and for every sequence of bytes after the status
    byte, so neither is looked at. *)
Theorem decoded_response_negative_status
  (k : CommandKind) (request_layout response_layout : Construct)
  (encoded_req : option bytes) (decoded_req : option value)
  (status_byte : Z) (rest : bytes) :
  signed status_byte < 0 ->
  let definition := new_CommandDefinition k request_layout response_layout in
  let self := new_Command definition (encoded_req, Some (status_byte :: rest))
                          (decoded_req, None) in
  let failure :=
    Failed (mkCommandException
              (kind_name k ++ " failed with code " ++ str_of_int (signed status_byte))) in
  decoded_response self =
  Ok (Some failure,
      new_Command definition (encoded_req, Some (status_byte :: rest))
                  (decoded_req, Some failure)).
Proof.
  intros Hneg definition self failure.
  unfold decoded_response.
  change (_should_convert (_decoded_response self) (_encoded_response self)) with true.
  cbv iota.
  unfold self, definition. rewrite parse_error_code by reflexivity.
  destruct (Z.ltb_spec (signed status_byte) 0) as [_ | Hge]; [| lia].
  reflexivity.
Qed.

Lemma decoded_response_negative_status_witness :
  signed 253 < 0
  /\ (c <- from_encoded (Some [1; 131; 7; 6; 2]) (Some [253; 1; 2; 3]) ;;
      '(obj, _) <- decoded_response c ;;
      Ok obj)
     = Ok (Some (Failed (mkCommandException "READ_VALUE failed with code -3"))).
Proof.
  assert (Hneg : signed 253 < 0) by (vm_compute; reflexivity).
  split; [exact Hneg |].
  pose proof (decoded_response_negative_status READ_VALUE
                (OBJECT_ID +++ OBJECT_TYPE +++ OBJECT_SIZE)
                (OBJECT_TYPE +++ OBJECT_SIZE +++ OBJECT_DATA)
                (Some [1; 131; 7; 6; 2]) None 253 [1; 2; 3] Hneg) as Hthm.
  cbv zeta in Hthm.
  apply (f_equal (fun r => '(obj, _) <- r ;; Ok obj)) in Hthm.
  exact Hthm.
Defined.

(** ** The registry *)

Lemma lookup_In {A : Type} (key : string) (d : list (string * A)) (v : A) :
  lookup key d = Some v -> In (key, v) d.
Proof.
  induction d as [| [k w] d IH]; simpl; [discriminate |].
  destruct (String.eqb_spec k key) as [-> | _].
  - intros H; inversion H; subst. left; reflexivity.
  - intros H. right. apply IH, H.
Qed.


(** Every entry of the registry sits under the name of its own opcode. *)
Lemma registry_keys (key : string) (d : CommandDefinition) :
  lookup key COMMAND_DEFS = Some d ->
  key = kind_name d.(opcode) /\ registered d.(opcode) = true.
Proof.
  intros H. apply lookup_In in H.
  assert (Hall : Forall (fun e : string * CommandDefinition =>
                           fst e = kind_name (snd e).(opcode)
                           /\ registered (snd e).(opcode) = true) COMMAND_DEFS).
  { repeat constructor. }
  rewrite Forall_forall in Hall. exact (Hall _ H).
Qed.

(** C4, as the code has it: every kind other than UNUSED has a definition in
    the registry, carrying that kind as its opcode, and the definition is the
    one found both through the kind's name and through any request that
    starts with the kind's opcode byte. *)
Theorem every_kind_but_UNUSED_defined (k : CommandKind) :
  k <> UNUSED ->
  exists d,
    definition_of k = Some d
    /\ d.(opcode) = k
    /\ (forall args,
          from_decoded (kind_name k) args =
          Ok (new_Command d (None, None) (not_none args, None)))
    /\ (forall tail encoded_resp,
          from_encoded (Some (encmapping k :: tail)) encoded_resp =
          Ok (new_Command d (Some (encmapping k :: tail), encoded_resp) (None, None))).
Proof.
  intros Hk.
  destruct k; try congruence;
    (eexists; split; [reflexivity | split; [reflexivity | split; reflexivity]]).
Qed.

Lemma every_kind_but_UNUSED_defined_witness :
  exists d,
    definition_of LIST_PROFILES = Some d
    /\ from_encoded (Some [14]) None = Ok (new_Command d (Some [14], None) (None, None)).
Proof.
  destruct (every_kind_but_UNUSED_defined LIST_PROFILES) as (d & Hd & _ & _ & He).
  - discriminate.
  - exists d. split; [exact Hd | apply (He [] None)].
Defined.

(** C4 fails on the code: UNUSED is one of the sixteen kinds, the registry
    holds fifteen definitions and none for UNUSED, and a lookup by its name
    or by its opcode raises KeyError. *)
Lemma UNUSED_has_no_definition :
  In UNUSED all_kinds
  /\ List.length all_kinds = 16%nat
  /\ List.length COMMAND_DEFS = 15%nat
  /\ definition_of UNUSED = None
  /\ from_decoded "UNUSED" (VDict []) =
     Raise (KeyError "No command definition known for [UNUSED]")
  /\ from_encoded (Some [13]) None =
     Raise (KeyError "Failed to identify command for opcode [UNUSED]").
Proof.
  repeat split; try reflexivity.
  simpl. tauto.
Qed.

(** ** Command.from_decoded *)



(** ** The list responses *)

Lemma parse_Struct (subcons : list (option string * Construct)) (data : bytes) :
  parse (Struct subcons) data =
  ('(obj, rest) <- parse_members subcons data ;; Ok (VDict obj, rest)).
Proof. reflexivity. Qed.

Lemma parse_members_cons (name : option string) (sc : Construct)
  (others : list (option string * Construct)) (s : bytes) :
  parse_members ((name, sc) :: others) s =
  ('(subobj, rest) <- parse sc s ;;
   '(more, rest') <- parse_members others rest ;;
   match name with
   | Some n => Ok ((n, subobj) :: more, rest')
   | None => Ok (more, rest')
   end).
Proof. reflexivity. Qed.

Lemma build_Struct (subcons : list (option string * Construct))
  (items : list (string * value)) :
  build (Struct subcons) (VDict items) = build_members items subcons.
Proof. reflexivity. Qed.

Lemma parse_greedy_Byte (data : bytes) (fuel : nat) :
  (List.length data < fuel)%nat ->
  parse_greedy (parse Byte) fuel data = (map VInt data, []).
Proof.
  revert fuel. induction data as [| b data IH]; intros fuel Hfuel;
    (destruct fuel as [| fuel]; [simpl in Hfuel; lia |]).
  - reflexivity.
  - simpl. rewrite IH by (simpl in Hfuel; lia). reflexivity.
Qed.

(** The loop of [RepeatUntil] over [Byte] stops on the data, never on its
    bound: any larger bound gives the same result. *)
Lemma parse_until_Byte_fuel p (s : bytes) :
  forall (fuel : nat) (acc : list value),
    (List.length s < fuel)%nat ->
    parse_until p (parse Byte) fuel s acc =
    parse_until p (parse Byte) (S (List.length s)) s acc.
Proof.
  induction s as [| b s IH]; intros fuel acc Hfuel;
    (destruct fuel as [| fuel]; [simpl in Hfuel; lia |]).
  - reflexivity.
  - simpl. destruct (p (VInt b) (acc ++ [VInt b])); [reflexivity |].
    apply IH. simpl in Hfuel; lia.
Qed.

(** [Byte[:]] reads every byte that is left. *)
Lemma parse_GreedyRange_Byte (data : bytes) :
  parse (slice_all Byte) data = Ok (VList (map VInt data), []).
Proof.
  unfold slice_all. rewrite parse_GreedyRange.
  rewrite parse_greedy_Byte by lia. reflexivity.
Qed.

Lemma OBJECT_RECORD_members :
  OBJECT_RECORD =
  Struct [named "id" VariableLengthIDAdapter; named "type" Byte; named "size" Byte;
          named "data" (slice_all Byte)].
Proof. reflexivity. Qed.

(** A record ends in [data], so reading one leaves nothing unread. *)
Lemma parse_OBJECT_RECORD_rest (s : bytes) (v : value) (rest : bytes) :
  parse OBJECT_RECORD s = Ok (v, rest) -> rest = [].
Proof.
  rewrite OBJECT_RECORD_members. unfold named.
  rewrite parse_Struct, parse_members_cons.
  destruct (parse VariableLengthIDAdapter s) as [[vid r1] |]; cbn [bind];
    [| discriminate].
  rewrite parse_members_cons.
  destruct r1 as [| t r2]; [discriminate |].
  change (parse Byte (t :: r2)) with (@Ok (value * bytes) (VInt t, r2)).
  cbn [bind]. rewrite parse_members_cons.
  destruct r2 as [| z r3]; [discriminate |].
  change (parse Byte (z :: r3)) with (@Ok (value * bytes) (VInt z, r3)).
  cbn [bind]. rewrite parse_members_cons.
  rewrite parse_GreedyRange_Byte. cbn [bind parse_members].
  intros H; inversion H; reflexivity.
Qed.

Lemma response_of_LIST_OBJECTS :
  response_of LIST_OBJECTS =
  Struct [named "errcode" ErrorcodeEnum;
          unnamed (Padding 1);
          named "objects" (Optional (Sequence [OBJECT_RECORD]));
          named "terminator" (Const 0 Byte);
          unnamed Terminated].
Proof. reflexivity. Qed.

Lemma parse_ErrorcodeEnum (b : Z) (rest : bytes) :
  parse ErrorcodeEnum (b :: rest) = Ok (errcode_of b, rest).
Proof.
  unfold errcode_of, ErrorcodeEnum. rewrite !parse_Enum_Int8sb.
  destruct (label_of (signed b) _); reflexivity.
Qed.

Lemma parse_Optional (c : Construct) (s : bytes) :
  parse (Optional c) s =
  match parse c s with
  | Ok r => Ok r
  | Raise _ => Ok (VNone, s)
  end.
Proof. reflexivity. Qed.

Lemma parse_Sequence_single (c : Construct) (s : bytes) :
  parse (Sequence [c]) s = ('(x, rest) <- parse c s ;; Ok (VList [x], rest)).
Proof.
  cbn [parse]. destruct (parse c s) as [[x r] |]; reflexivity.
Qed.

Lemma parse_Const_Byte (v : Z) (s : bytes) :
  parse (Const v Byte) s =
  match s with
  | [] => Raise StreamError
  | b :: rest => if b =? v then Ok (VInt b, rest) else Raise ConstError
  end.
Proof. destruct s; reflexivity. Qed.

Lemma parse_Padding_1 (s : bytes) :
  parse (Padding 1) s =
  match s with
  | [] => Raise StreamError
  | _ :: rest => Ok (VNone, rest)
  end.
Proof. destruct s; reflexivity. Qed.

Lemma build_members_cons (items : list (string * value)) (name : option string)
  (sc : Construct) (others : list (option string * Construct)) :
  build_members items ((name, sc) :: others) =
  (subobj <- match match name with
                   | Some n => lookup n items
                   | None => None
                   end with
             | Some v => Ok v
             | None =>
                 if flagbuildnone sc then Ok VNone
                 else Raise (KeyError match name with
                                      | Some n => n
                                      | None => "None"%string
                                      end)
             end ;;
   data <- build sc subobj ;;
   more <- build_members items others ;;
   Ok (data ++ more)).
Proof. reflexivity. Qed.

Lemma build_Optional (c : Construct) (obj : value) :
  build (Optional c) obj =
  match build c obj with
  | Ok data => Ok data
  | Raise _ => Ok []
  end.
Proof. reflexivity. Qed.

Lemma build_Sequence_single (c : Construct) (x : value) :
  build (Sequence [c]) (VList [x]) = (data <- build c x ;; Ok (data ++ [])).
Proof.
  cbn [build]. destruct (build c x); reflexivity.
Qed.

(** What the LIST_OBJECTS response layout accepts. *)
Lemma parse_LIST_OBJECTS_response (data : bytes) (fields : value) :
  parse_bytes (response_of LIST_OBJECTS) data = Ok fields ->
  exists status_byte pad,
    data = [status_byte; pad; 0]
    /\ fields = VDict [("errcode"%string, errcode_of status_byte);
                       ("objects"%string, VNone);
                       ("terminator"%string, VInt 0)].
Proof.
  rewrite response_of_LIST_OBJECTS. unfold parse_bytes, named, unnamed.
  rewrite parse_Struct, parse_members_cons.
  destruct data as [| st d1]; [discriminate |].
  rewrite parse_ErrorcodeEnum. cbn [bind].
  rewrite parse_members_cons, parse_Padding_1.
  destruct d1 as [| pad d2]; [discriminate |]. cbn [bind].
  rewrite parse_members_cons, parse_Optional, parse_Sequence_single.
  destruct (parse OBJECT_RECORD d2) as [[rec r] |] eqn:Erec; cbn [bind].
  - apply parse_OBJECT_RECORD_rest in Erec. subst r.
    rewrite parse_members_cons, parse_Const_Byte. discriminate.
  - rewrite parse_members_cons, parse_Const_Byte.
    destruct d2 as [| z d3]; [discriminate |].
    destruct (Z.eqb_spec z 0) as [-> | _]; [| discriminate].
    cbn [bind]. rewrite parse_members_cons.
    destruct d3 as [| extra d4]; [| discriminate].
    cbn. intros H; inversion H; subst.
    exists st, pad. split; reflexivity.
Qed.

Lemma parse_LIST_OBJECTS_minimal (status_byte pad : Z) :
  parse_bytes (response_of LIST_OBJECTS) [status_byte; pad; 0] =
  Ok (VDict [("errcode"%string, errcode_of status_byte);
             ("objects"%string, VNone);
             ("terminator"%string, VInt 0)]).
Proof.
  rewrite response_of_LIST_OBJECTS. unfold parse_bytes, named, unnamed.
  rewrite parse_Struct, parse_members_cons, parse_ErrorcodeEnum. cbn [bind].
  reflexivity.
Qed.

(** C5, as the code has it: a LIST_OBJECTS response that parses is the status
    byte, one padding byte, the objects section, and a last byte 0x00 after
    which nothing follows; the response without any object (status, padding
    of any value, 0x00) parses, with [objects] absent; and building writes a
    zero padding byte after the status, then the record if one is given,
    then the terminator. *)
Theorem LIST_OBJECTS_response_layout :
  (forall data fields,
     parse_bytes (response_of LIST_OBJECTS) data = Ok fields ->
     exists status_byte pad body, data = status_byte :: pad :: body ++ [0])
  /\ (forall status_byte pad,
        parse_bytes (response_of LIST_OBJECTS) [status_byte; pad; 0] =
        Ok (VDict [("errcode"%string, errcode_of status_byte);
                   ("objects"%string, VNone);
                   ("terminator"%string, VInt 0)]))
  /\ (forall record record_bytes,
        build OBJECT_RECORD record = Ok record_bytes ->
        build (response_of LIST_OBJECTS)
              (VDict [("errcode"%string, VLabel "OK" 0);
                      ("objects"%string, VList [record]);
                      ("terminator"%string, VInt 0)])
        = Ok (0 :: 0 :: record_bytes ++ [0]))
  /\ build (response_of LIST_OBJECTS)
           (VDict [("errcode"%string, VLabel "OK" 0);
                   ("objects"%string, VNone);
                   ("terminator"%string, VInt 0)])
     = Ok [0; 0; 0].
Proof.
  split; [| split; [| split]].
  - intros data fields H.
    apply parse_LIST_OBJECTS_response in H as (st & pad & -> & _).
    exists st, pad, []. reflexivity.
  - apply parse_LIST_OBJECTS_minimal.
  - intros record record_bytes Hrec.
    rewrite response_of_LIST_OBJECTS. unfold named, unnamed.
    rewrite build_Struct, build_members_cons.
    change (lookup "errcode" _) with (Some (VLabel "OK" 0)).
    change (build ErrorcodeEnum (VLabel "OK" 0)) with (@Ok bytes [0]).
    cbn [bind].
    rewrite build_members_cons. cbn [bind flagbuildnone].
    change (build (Padding 1) VNone) with (@Ok bytes [0]). cbn [bind].
    rewrite build_members_cons.
    change (lookup "objects" _) with (Some (VList [record])).
    cbn [bind]. rewrite build_Optional, build_Sequence_single, Hrec.
    cbn [bind]. rewrite app_nil_r. reflexivity.
  - reflexivity.
Qed.

Lemma LIST_OBJECTS_response_layout_witness :
  build (response_of LIST_OBJECTS) listing = Ok [0; 0; 1; 2; 3; 4; 5; 0]
  /\ exists status_byte pad body, [0; 42; 0] = status_byte :: pad :: body ++ [0].
Proof.
  destruct LIST_OBJECTS_response_layout as (Hshape & _ & Hbuild & _).
  split.
  - apply (Hbuild listed_object [1; 2; 3; 4; 5]). reflexivity.
  - apply (Hshape [0; 42; 0]
             (VDict [("errcode"%string, errcode_of 0);
                     ("objects"%string, VNone);
                     ("terminator"%string, VInt 0)])).
    reflexivity.
Defined.

(** C5 fails on the code: the status byte followed at once by the terminator
    (a list of no object, with nothing before it) does not parse, and a
    response with the byte 42 between the status byte and the terminator
    does. *)
Lemma LIST_OBJECTS_response_has_padding :
  parse_bytes (response_of LIST_OBJECTS) [0; 0] = Raise StreamError
  /\ parse_bytes (response_of LIST_OBJECTS) [0; 42; 0] =
     Ok (VDict [("errcode"%string, VLabel "OK" 0);
                ("objects"%string, VNone);
                ("terminator"%string, VInt 0)]).
Proof. split; reflexivity. Qed.

(** No response that has bytes between the padding and the terminator
    parses: the [data] of a record takes the terminator with it. *)
Lemma LIST_OBJECTS_response_with_objects_rejected (status_byte pad : Z) (body : bytes) :
  body <> [] ->
  exists e,
    parse_bytes (response_of LIST_OBJECTS) (status_byte :: pad :: body ++ [0]) = Raise e.
Proof.
  intros Hbody.
  destruct (parse_bytes _ _) as [fields | e] eqn:E; [| exists e; reflexivity].
  apply parse_LIST_OBJECTS_response in E as (st & p & Hdata & _).
  exfalso. inversion Hdata as [[Hst Hp Hrest]].
  destruct body as [| b [| b' body]]; [congruence | discriminate | discriminate].
Qed.

(** ** The round trip through a Command *)

(** C1 at a LIST_OBJECTS response that lists one object: the command built
    from the decoded fields encodes its request and its response, and the
    command built from those bytes raises StreamError in [decoded_response]
    instead of handing back the fields. *)
Theorem LIST_OBJECTS_listing_does_not_round_trip :
  exists d,
    definition_of LIST_OBJECTS = Some d
    /\ (c <- from_decoded "LIST_OBJECTS" (VDict [("profile_id"%string, VInt 0)]) ;;
        '(encoded, _) <- encoded_request c ;;
        Ok encoded) = Ok (Some [5; 0])
    /\ ('(encoded, _) <- encoded_response
                           (new_Command d (None, None) (None, Some (Parsed listing))) ;;
        Ok encoded) = Ok (Some [0; 0; 1; 2; 3; 4; 5; 0])
    /\ (c <- from_encoded (Some [5; 0]) (Some [0; 0; 1; 2; 3; 4; 5; 0]) ;;
        '(decoded, _) <- decoded_response c ;;
        Ok decoded) = Raise StreamError.
Proof.
  eexists. split; [reflexivity |].
  split; [| split]; vm_compute; reflexivity.
Qed.

(** The request of LOG_VALUES leaves the [id] out when it is built, so the
    decoded request of the other side has none. *)
Lemma LOG_VALUES_request_drops_id :
  (c <- from_decoded "LOG_VALUES" log_request ;;
   '(encoded, _) <- encoded_request c ;;
   Ok encoded) = Ok (Some [10; 1])
  /\ (c <- from_encoded (Some [10; 1]) None ;;
      '(decoded, _) <- decoded_request c ;;
      Ok decoded)
     = Ok (Some (VDict [("opcode"%string, VInt 10);
                        ("flags"%string,
                         VDict [("id_chain"%string, VBool true);
                                ("system_container"%string, VBool false);
                                ("default"%string, VBool true)])])).
Proof. split; vm_compute; reflexivity. Qed.

(* ------------------------------------------------------------------ *)
(** ** The stream framer *)

Lemma scan_event_shorter (s inner after : string) :
  communication.scan_event s = Some (inner, after) ->
  (String.length after < String.length s)%nat.
Proof.
  revert inner after. induction s as [| c s IH]; intros inner after; simpl;
    [discriminate |].
  destruct (Ascii.eqb c ">").
  - intros H; inversion H; subst. lia.
  - destruct (Ascii.eqb c "<"); [discriminate |].
    destruct (communication.scan_event s) as [[i a] |]; [| discriminate].
    intros H; inversion H; subst. specialize (IH _ _ eq_refl). lia.
Qed.

(** Taking an event out makes the buffer shorter. *)
Lemma remove_first_event_shorter (s event s' : string) :
  communication.remove_first_event s = Some (event, s') ->
  (String.length s' < String.length s)%nat.
Proof.
  revert event s'. induction s as [| c s IH]; intros event s'; simpl;
    [discriminate |].
  destruct (if Ascii.eqb c "<"
            then match s with
                 | String bang rest' =>
                     if Ascii.eqb bang "!" then communication.scan_event rest' else None
                 | EmptyString => None
                 end
            else None) as [[i a] |] eqn:Ehere.
  - intros H; inversion H; subst.
    destruct (Ascii.eqb c "<"); [| discriminate].
    destruct s as [| bang rest']; [discriminate |].
    destruct (Ascii.eqb bang "!"); [| discriminate].
    apply scan_event_shorter in Ehere. simpl. lia.
  - destruct (communication.remove_first_event s) as [[e r] |]; [| discriminate].
    intros H; inversion H; subst. specialize (IH _ _ eq_refl). simpl. lia.
Qed.

Lemma event_loop_stable (fuel : nat) (buffer : string) :
  (String.length buffer <= fuel)%nat ->
  communication.remove_first_event (snd (communication.event_loop fuel buffer)) = None.
Proof.
  revert buffer. induction fuel as [| fuel IH]; intros buffer Hlen.
  - destruct buffer; [reflexivity | simpl in Hlen; lia].
  - simpl.
    destruct (communication.remove_first_event buffer) as [[event buffer'] |] eqn:E.
    + apply remove_first_event_shorter in E.
      specialize (IH buffer' ltac:(lia)).
      destruct (communication.event_loop fuel buffer') as [evs rest]. exact IH.
    + exact E.
Qed.

(** The event pass runs until no event is left in the buffer: the bound on
    its rounds is never what stops it. *)
Lemma event_pass_stable (buffer : string) :
  communication.remove_first_event (snd (communication.event_pass buffer)) = None.
Proof.
  unfold communication.event_pass. apply event_loop_stable. lia.
Qed.

(** The example of the design text: the inner event comes first, then the
    event the splice forms. *)
Example event_pass_nested :
  communication.event_pass "<!A<!B>C>" = (["B"%string; "AC"%string], EmptyString).
Proof. reflexivity. Qed.

(** C7: the ten chunks of the framing property, fed in order to a framer with
    an empty buffer, emit exactly the five expected events and the two
    expected data lines, in order; the last chunk, which has no newline,
    stays in the buffer. *)
Theorem test_coerce_messages :
  communication._send_chunks EmptyString
    {| communication.events := []; communication.data := [] |}
    communication.serial_data
  = ("<invalid! event!>"%string,
     {| communication.events :=
          ["connected:sensor"; "spaced message"; "interrupt"; "connected:message";
           "interrupted! message"]%string;
        communication.data := ["0A000128C80E9A0300009C"; "34234"]%string |}).
Proof. vm_compute. reflexivity. Qed.

(** The chunks as the fixture of the tests cuts them (the first two of the
    ten in one) give the same events and data. *)
Example fixture_chunks_coerce :
  communication._send_chunks EmptyString
    {| communication.events := []; communication.data := [] |}
    (String.append "<add>0A<id>00<OneWir" "<!connected:sen"
     :: skipn 2 communication.serial_data)
  = ("<invalid! event!>"%string,
     {| communication.events := communication.expected_events;
        communication.data := communication.expected_data |}).
Proof. vm_compute. reflexivity. Qed.

(** ** The conduit *)

Lemma run_unbound (ops : list communication.call) (c : communication.SparkConduit) :
  forallb (fun op => negb (communication.successful_bind op)) ops = true ->
  communication.is_bound c = false ->
  communication.run ops c = {| communication.is_bound := false;
                               communication.written := communication.written c |}.
Proof.
  revert c. induction ops as [| op ops IH]; intros c Hops Hc.
  - destruct c; simpl in *; subst; reflexivity.
  - simpl in Hops. apply andb_true_iff in Hops as [Hop Hops].
    unfold communication.run in *. simpl.
    assert (Hstep : communication.step c op = c).
    { destruct op as [[|] | | text]; simpl in *.
      - discriminate.
      - reflexivity.
      - destruct c; simpl in *; subst; reflexivity.
      - unfold communication.write. rewrite Hc. reflexivity. }
    rewrite Hstep. apply IH; assumption.
Qed.

(** C8: on a conduit that has been through any calls none of which was a
    successful bind, [write] fails the contract check with AssertionError;
    nothing has been handed to the transport, and the failed write leaves
    the conduit as it was. *)
Theorem write_on_never_bound_conduit (ops : list communication.call) (text : string) :
  forallb (fun op => negb (communication.successful_bind op)) ops = true ->
  let conduit := communication.run ops communication.new_SparkConduit in
  communication.write conduit text = Raise AssertionError
  /\ communication.written conduit = []
  /\ communication.step conduit (communication.Write text) = conduit.
Proof.
  intros Hops conduit.
  assert (Hc : conduit = communication.new_SparkConduit).
  { unfold conduit. rewrite run_unbound by (assumption || reflexivity). reflexivity. }
  rewrite Hc. repeat split.
Qed.

Lemma write_on_never_bound_conduit_witness :
  communication.write
    (communication.run [communication.Close; communication.Bind false;
                        communication.Write "early"]
                       communication.new_SparkConduit)
    "stuff"
  = Raise AssertionError.
Proof.
  apply (write_on_never_bound_conduit
           [communication.Close; communication.Bind false; communication.Write "early"]
           "stuff").
  reflexivity.
Defined.

(** ** Discovery *)

Lemma filter_none (wanted : string) (ports : list communication.DummyPortInfo) :
  Forall (fun q => communication.serial_number q <> wanted) ports ->
  filter (fun p => String.eqb (communication.serial_number p) wanted) ports = [].
Proof.
  induction 1 as [| q ports Hq _ IH]; simpl; [reflexivity |].
  destruct (String.eqb_spec (communication.serial_number q) wanted); [contradiction |].
  exact IH.
Qed.

(** C9: an explicit device path is returned as it is, whatever the ports;
    without one, and with a serial number, the device of the first
    recognized port that has this serial number is returned; and when no
    recognized port has it, the call raises ValueError. *)
Theorem detect_device_spec :
  (forall ports path serial,
     communication.detect_device ports (Some path) serial = Ok path)
  /\ (forall before p after wanted,
        Forall (fun q => communication.serial_number q <> wanted) before ->
        communication.serial_number p = wanted ->
        communication.detect_device (before ++ p :: after) None (Some wanted)
        = Ok (communication.device p))
  /\ (forall ports wanted,
        Forall (fun q => communication.serial_number q <> wanted) ports ->
        communication.detect_device ports None (Some wanted) = Raise ValueError).
Proof.
  split; [| split].
  - reflexivity.
  - intros before p after wanted Hbefore Hp.
    unfold communication.detect_device.
    rewrite filter_app, filter_none by assumption. simpl.
    rewrite Hp, String.eqb_refl. reflexivity.
  - intros ports wanted Hnone.
    unfold communication.detect_device. rewrite filter_none by assumption.
    reflexivity.
Qed.

Lemma detect_device_spec_witness :
  communication.detect_device communication.dummy None (Some "4321"%string)
  = Ok "/dev/ttyX"%string
  /\ communication.detect_device [communication.dummy_0] None (Some "4321"%string)
     = Raise ValueError.
Proof.
  destruct detect_device_spec as (_ & Hfirst & Hnone).
  split.
  - apply (Hfirst [communication.dummy_0] communication.dummy_1 [] "4321"%string).
    + repeat constructor. simpl. discriminate.
    + reflexivity.
  - apply Hnone. repeat constructor. simpl. discriminate.
Defined.

(* ------------------------------------------------------------------ *)
(** ** Where the round trip holds *)

(** *** The members one by one *)

Lemma rt_Const_Byte (v : Z) : is_byte v -> rt (Const v Byte) (VInt v) [v].
Proof.
  intros Hv. split.
  - cbn [build as_int]. rewrite Z.eqb_refl. apply build_Byte_ok, Hv.
  - intros rest. cbn [app]. rewrite parse_Const_Byte, Z.eqb_refl. reflexivity.
Qed.

Lemma rt_Byte (n : Z) : is_byte n -> rt Byte (VInt n) [n].
Proof.
  intros Hn. split; [apply build_Byte_ok, Hn | reflexivity].
Qed.

Lemma signed_sbyte (n : Z) : is_sbyte n -> signed (sbyte n) = n.
Proof.
  unfold is_sbyte, signed, sbyte. intros Hn.
  destruct (Z.ltb_spec n 0).
  - destruct (Z.ltb_spec (n + 256) 128); lia.
  - destruct (Z.ltb_spec n 128); lia.
Qed.

Lemma rt_Int8sb (n : Z) : is_sbyte n -> rt Int8sb (VInt n) [sbyte n].
Proof.
  intros Hn. split.
  - cbn [build]. unfold pack_b, sbyte. cbn [as_int]. unfold is_sbyte in Hn.
    destruct (Z.leb_spec (-128) n), (Z.leb_spec n 127); try lia. reflexivity.
  - intros rest. cbn [app parse].
    fold (signed (sbyte n)). rewrite signed_sbyte by assumption. reflexivity.
Qed.

Lemma rt_id (path : list Z) :
  is_path path -> rt VariableLengthIDAdapter (ints path) (id_bytes path).
Proof.
  intros [Hne Hall]. split.
  - apply build_id_iff.
    pose proof (app_removelast_last 0 Hne) as Hsplit.
    rewrite Hsplit in Hall. apply Forall_app in Hall as [Hinit Hlast].
    inversion Hlast; subst.
    split; [assumption |]. split; [| split; [assumption | reflexivity]].
    eapply Forall_impl; [| exact Hinit]. unfold is_byte. intros a Ha; lia.
  - intros rest. apply parse_id_bytes; assumption.
Qed.

Lemma build_each_Byte (data : bytes) :
  Forall is_byte data -> build_each (build Byte) (map VInt data) = Ok data.
Proof.
  induction 1 as [| b data Hb _ IH]; [reflexivity |].
  cbn [map build_each]. rewrite build_Byte_ok by assumption. cbn [bind].
  rewrite IH. reflexivity.
Qed.

Lemma rt_end_data (data : bytes) :
  Forall is_byte data -> rt_end (slice_all Byte) (ints data) data.
Proof.
  intros Hall. split.
  - unfold slice_all, ints. rewrite build_GreedyRange. apply build_each_Byte, Hall.
  - apply parse_GreedyRange_Byte.
Qed.

Lemma build_errcode (st : Z) :
  is_status st -> build ErrorcodeEnum (errcode_of st) = Ok [st].
Proof.
  intros Hst.
  assert (H : errcode_check st = true).
  { apply byte_cases; [vm_compute; reflexivity | unfold is_status in Hst; lia]. }
  unfold errcode_check in H. apply orb_true_iff in H as [H | H].
  - apply Z.ltb_lt in H. unfold is_status in Hst. lia.
  - destruct (build ErrorcodeEnum (errcode_of st)) as [[| x [| y l]] | e];
      try discriminate.
    apply Z.eqb_eq in H. subst. reflexivity.
Qed.

Lemma rt_errcode (st : Z) : is_status st -> rt ErrorcodeEnum (errcode_of st) [st].
Proof.
  intros Hst. split; [apply build_errcode, Hst |].
  intros rest. apply parse_ErrorcodeEnum.
Qed.

Lemma rt_Sequence_Int8ub (n : Z) :
  is_byte n -> rt (Sequence [Int8ub]) (VList [VInt n]) [n].
Proof.
  intros Hn. split.
  - rewrite build_Sequence_single. fold Byte. rewrite build_Byte_ok by assumption.
    reflexivity.
  - intros rest. reflexivity.
Qed.


(** *** A Struct of such members *)

Lemma layout_rt_sound (all : list (string * value))
  (ms : list (option string * Construct)) (its : list (string * value)) (ds : bytes) :
  layout_rt all ms its ds ->
  build_members all ms = Ok ds /\ parse_members ms ds = Ok (its, []).
Proof.
  induction 1 as [| name c v d ms its ds Hlook [Hb Hp] _ [IHb IHp]
                  | name c v d Hlook [Hb Hp]].
  - split; reflexivity.
  - split.
    + rewrite build_members_cons, Hlook. cbn [bind]. rewrite Hb. cbn [bind].
      rewrite IHb. reflexivity.
    + rewrite parse_members_cons, Hp. cbn [bind]. rewrite IHp. reflexivity.
  - split.
    + rewrite build_members_cons, Hlook. cbn [bind]. rewrite Hb. cbn [bind build_members].
      rewrite app_nil_r. reflexivity.
    + rewrite parse_members_cons, Hp. reflexivity.
Qed.

Lemma Struct_round_trip (ms : list (option string * Construct))
  (its : list (string * value)) (ds : bytes) :
  layout_rt its ms its ds ->
  build (Struct ms) (VDict its) = Ok ds
  /\ parse_bytes (Struct ms) ds = Ok (VDict its).
Proof.
  intros H. apply layout_rt_sound in H as [Hb Hp]. split.
  - rewrite build_Struct. exact Hb.
  - unfold parse_bytes. rewrite parse_Struct, Hp. reflexivity.
Qed.

(** *** From the layouts to the commands *)

Lemma upper_kind_name (k : CommandKind) : upper (kind_name k) = kind_name k.
Proof. destruct k; reflexivity. Qed.

Lemma parse_opcode (k : CommandKind) (tail : bytes) :
  parse_bytes OpcodeEnum (encmapping k :: tail) = Ok (VLabel (kind_name k) (encmapping k)).
Proof. destruct k; reflexivity. Qed.


Lemma definition_status (k : CommandKind) (d : CommandDefinition) :
  definition_of k = Some d -> d.(status) = Struct [named "errcode" ErrorcodeEnum].
Proof.
  destruct k; intros H; inversion H; reflexivity.
Qed.

Lemma response_bridge (k : CommandKind) (fields : value) (st : Z) (more : bytes) :
  registered k = true ->
  is_status st ->
  build (response_of k) fields = Ok (st :: more) ->
  parse_bytes (response_of k) (st :: more) = Ok fields ->
  response_round_trip k fields.
Proof.
  unfold registered, response_of. intros Hreg Hst Hbuild Hparse.
  destruct (definition_of k) as [d |] eqn:Ed; [| discriminate].
  exists d, (st :: more). split; [exact Ed |]. split.
  - unfold encoded_response, new_Command.
    cbn [_encoded_response _decoded_response _definition fst snd _should_convert
         build_response_attribute].
    rewrite Hbuild. reflexivity.
  - intros tail. unfold from_encoded.
    rewrite parse_opcode. cbn [bind].
    pose proof Ed as Ed'. unfold definition_of in Ed'. rewrite Ed'. cbn [bind].
    unfold decoded_response.
    change (_should_convert
              (_decoded_response (new_Command d (Some (encmapping k :: tail),
                                                 Some (st :: more)) (None, None)))
              (_encoded_response (new_Command d (Some (encmapping k :: tail),
                                                 Some (st :: more)) (None, None))))
      with true.
    cbv iota.
    rewrite parse_error_code by (apply (definition_status k), Ed).
    assert (Hsigned : signed st = st).
    { unfold signed, is_status in *. destruct (Z.ltb_spec st 128); lia. }
    rewrite Hsigned.
    destruct (Z.ltb_spec st 0) as [Hneg | _]; [unfold is_status in Hst; lia |].
    cbn [bind].
    unfold new_Command.
    cbn [_encoded_response _definition snd parse_attribute].
    rewrite Hparse. reflexivity.
Qed.

(** *** Every kind, request and response *)

Ltac rt_member :=
  first [ apply rt_Const_Byte; unfold is_byte; simpl; lia
        | apply rt_Byte; assumption
        | apply rt_Int8sb; assumption
        | apply rt_id; assumption
        | apply rt_errcode; assumption
        | apply rt_Sequence_Int8ub; assumption ].

Ltac rt_layout :=
  repeat first [ apply lrt_nil
               | eapply lrt_last; [reflexivity | apply rt_end_data; assumption]
               | eapply lrt_cons; [reflexivity | rt_member | ] ].

Ltac kinds_of H :=
  simpl in H;
  repeat match type of H with
         | _ \/ _ => destruct H as [<- | H]
         | False => destruct H
         end.


Ltac by_response_layout :=
  match goal with
  | |- response_round_trip ?k (VDict ?its) =>
      let Hrt := fresh "Hrt" in
      eassert (Hrt : layout_rt its _ its _) by rt_layout;
      apply Struct_round_trip in Hrt as [? ?];
      eapply (response_bridge k); [reflexivity | eassumption | eassumption | eassumption]
  end.

Lemma no_object_LIST_OBJECTS (st : Z) :
  is_status st ->
  build (response_of LIST_OBJECTS)
        (VDict [("errcode"%string, errcode_of st); ("objects"%string, VNone);
                ("terminator"%string, VInt 0)]) = Ok [st; 0; 0].
Proof.
  intros Hst. rewrite response_of_LIST_OBJECTS. unfold named, unnamed.
  rewrite build_Struct, build_members_cons.
  change (lookup "errcode" _) with (Some (errcode_of st)). cbn [bind].
  rewrite build_errcode by assumption. reflexivity.
Qed.

Lemma no_object_LOG_VALUES (st : Z) :
  is_status st ->
  build (response_of LOG_VALUES)
        (VDict [("errcode"%string, errcode_of st); ("objects"%string, VNone);
                ("terminator"%string, VInt 0)]) = Ok [st; 0]
  /\ parse_bytes (response_of LOG_VALUES) [st; 0] =
     Ok (VDict [("errcode"%string, errcode_of st); ("objects"%string, VNone);
                ("terminator"%string, VInt 0)]).
Proof.
  intros Hst.
  change (response_of LOG_VALUES)
    with (Struct [(Some "errcode"%string, ErrorcodeEnum);
                  named "objects"
                    (Optional (Sequence
                       [Padding 1 +++ OBJECT_ID +++ OBJECT_TYPE +++ OBJECT_SIZE
                        +++ OBJECT_DATA]));
                  named "terminator" (Const 0 Byte);
                  unnamed Terminated]).
  split.
  - rewrite build_Struct, build_members_cons.
    change (lookup "errcode" _) with (Some (errcode_of st)). cbn [bind].
    rewrite build_errcode by assumption. reflexivity.
  - unfold parse_bytes.
    rewrite parse_Struct, parse_members_cons, parse_ErrorcodeEnum. reflexivity.
Qed.


(** Every response of [conforming_response] makes the round trip of C1. *)
Theorem conforming_response_round_trips (k : CommandKind) (fields : value) :
  conforming_response k fields -> response_round_trip k fields.
Proof.
  destruct 1 as [k st type size data Hk Hst Htype Hsize Hdata
                | k st Hk Hst
                | st profile Hst Hprofile
                | st profile defined Hst Hprofile Hdefined
                | k st Hk Hst];
    try (kinds_of Hk);
    try by_response_layout.
  - eapply (response_bridge LIST_OBJECTS);
      [reflexivity | eassumption | apply no_object_LIST_OBJECTS; assumption
       | apply parse_LIST_OBJECTS_minimal].
  - destruct (no_object_LOG_VALUES st Hst) as [Hbuild Hparse].
    eapply (response_bridge LOG_VALUES);
      [reflexivity | eassumption | exact Hbuild | exact Hparse].
Qed.


Lemma conforming_response_round_trips_witness :
  response_round_trip WRITE_VALUE
    (VDict [("errcode"%string, errcode_of 0); ("type"%string, VInt 6);
            ("size"%string, VInt 2); ("data"%string, ints [17; 200])]).
Proof.
  apply conforming_response_round_trips.
  apply (response_type_size_data WRITE_VALUE 0 6 2 [17; 200]).
  - right; left; reflexivity.
  - unfold is_status; lia.
  - unfold is_byte; lia.
  - unfold is_byte; lia.
  - repeat constructor; unfold is_byte; lia.
Defined.

(* ------------------------------------------------------------------ *)
(** ** More on VariableLengthIDAdapter *)

Lemma flag_set_128 (b : Z) : Z.land b 128 <> 0 -> Z.land b 128 = 128.
Proof.
  intros Hb. destruct (land_128_cases b); [contradiction | assumption].
Qed.

(** What was built for a path has one byte per entry; every byte but the
    last carries the nesting flag, and the last does not. *)
Theorem encoded_id_flag_pattern (path : list Z) (data : bytes) :
  build VariableLengthIDAdapter (VList (map VInt path)) = Ok data ->
  List.length data = List.length path
  /\ Forall is_byte data
  /\ Forall (fun b => Z.land b 128 = 128) (removelast data)
  /\ Z.land (last data 0) 128 = 0.
Proof.
  intros H. apply build_id_iff in H as (Hne & Hall & Hlast & ->).
  unfold id_bytes. rewrite removelast_last, last_last.
  pose proof (app_removelast_last 0 Hne) as Hsplit.
  split; [| split; [| split]].
  - transitivity (List.length (removelast path ++ [last path 0])).
    + rewrite !length_app, length_map. reflexivity.
    + rewrite <- Hsplit. reflexivity.
  - apply Forall_app. split.
    + rewrite Forall_map. eapply Forall_impl; [| exact Hall].
      intros a Ha. apply lor_128_is_byte, Ha.
    + constructor; [unfold is_byte; lia | constructor].
  - rewrite Forall_map. apply Forall_forall. intros a _. apply land_lor_128.
  - apply flag_low, Hlast.
Qed.

Lemma encoded_id_flag_pattern_witness :
  List.length [131; 135; 9] = List.length [3; 7; 9]
  /\ Forall is_byte [131; 135; 9]
  /\ Forall (fun b => Z.land b 128 = 128) (removelast [131; 135; 9])
  /\ Z.land (last [131; 135; 9] 0) 128 = 0.
Proof.
  apply (encoded_id_flag_pattern [3; 7; 9] [131; 135; 9]). reflexivity.
Defined.

Lemma parse_until_unterminated (data : bytes) :
  Forall (fun b => Z.land b 128 <> 0) data ->
  forall (fuel : nat) (acc : list value),
    (List.length data < fuel)%nat ->
    parse_until no_nesting_flag (parse Byte) fuel data acc = Raise StreamError.
Proof.
  induction 1 as [| b data Hb _ IH]; intros fuel acc Hfuel;
    (destruct fuel as [| fuel]; [simpl in Hfuel; lia |]).
  - reflexivity.
  - simpl. unfold no_nesting_flag at 1; simpl.
    destruct (Z.eqb_spec (Z.land b 128) 0); [contradiction |].
    apply IH. simpl in Hfuel; lia.
Qed.

Lemma parse_until_inv (data : bytes) :
  forall (fuel : nat) (acc : list value) (v : value) (rest : bytes),
    (List.length data < fuel)%nat ->
    parse_until no_nesting_flag (parse Byte) fuel data acc = Ok (v, rest) ->
    exists fl x,
      data = fl ++ x :: rest
      /\ Forall (fun b => Z.land b 128 <> 0) fl
      /\ Z.land x 128 = 0
      /\ v = VList (acc ++ map VInt (fl ++ [x])).
Proof.
  induction data as [| b data IH]; intros fuel acc v rest Hfuel;
    (destruct fuel as [| fuel]; [simpl in Hfuel; lia |]).
  - simpl. discriminate.
  - simpl. unfold no_nesting_flag at 1; simpl.
    destruct (Z.eqb_spec (Z.land b 128) 0) as [H0 | Hne].
    + intros H; inversion H; subst.
      exists [], b. repeat split; auto.
    + intros H. apply IH in H as (fl & x & -> & Hfl & Hx & ->);
        [| simpl in Hfuel; lia].
      exists (b :: fl), x. repeat split; auto.
      rewrite <- app_assoc. reflexivity.
Qed.

Lemma parse_id_unfold (data : bytes) :
  parse VariableLengthIDAdapter data =
  ('(obj, rest) <- parse_until no_nesting_flag (parse Byte)
                               (S (List.length data)) data [] ;;
   obj' <- _decode obj ;;
   Ok (obj', rest)).
Proof. reflexivity. Qed.

(** Reading an id from any bytes: the bytes are taken up to and including
    the first one without the nesting flag, every one comes back with the
    flag bit cleared, and what follows is left unread; when every byte
    carries the flag, reading runs off the end and raises StreamError. *)
Theorem parse_id_any_bytes :
  (forall (flagged : bytes) (x : Z) (rest : bytes),
     Forall (fun b => Z.land b 128 <> 0) flagged ->
     Z.land x 128 = 0 ->
     parse VariableLengthIDAdapter (flagged ++ x :: rest) =
     Ok (VList (map VInt (map (fun b => Z.land b 127) (flagged ++ [x]))), rest))
  /\ (forall data : bytes,
        Forall (fun b => Z.land b 128 <> 0) data ->
        parse VariableLengthIDAdapter data = Raise StreamError).
Proof.
  split.
  - intros flagged x rest Hfl Hx.
    rewrite parse_id_unfold, parse_until_flagged.
    + cbn [bind app]. unfold _decode.
      rewrite remove_nesting_flags_ints. reflexivity.
    + eapply Forall_impl; [| exact Hfl]. intros a. apply flag_set_128.
    + exact Hx.
    + rewrite length_app. simpl. lia.
  - intros data Hall.
    rewrite parse_id_unfold, parse_until_unterminated by (auto; lia).
    reflexivity.
Qed.

Lemma parse_id_any_bytes_witness :
  parse VariableLengthIDAdapter [200; 129; 5; 77] = Ok (VList [VInt 72; VInt 1; VInt 5], [77])
  /\ parse VariableLengthIDAdapter [200; 129] = Raise StreamError.
Proof.
  destruct parse_id_any_bytes as [Hstop Hrun].
  split.
  - apply (Hstop [200; 129] 5 [77]); [repeat constructor; discriminate | reflexivity].
  - apply (Hrun [200; 129]). repeat constructor; discriminate.
Defined.

(** The other direction of the round trip: whatever id was read from a
    string of bytes, building it again gives exactly the bytes that were
    read. *)
Theorem parse_then_build_id (data : bytes) (obj : value) (rest : bytes) :
  Forall is_byte data ->
  parse VariableLengthIDAdapter data = Ok (obj, rest) ->
  exists consumed,
    data = consumed ++ rest
    /\ build VariableLengthIDAdapter obj = Ok consumed.
Proof.
  intros Hbytes Hparse. rewrite parse_id_unfold in Hparse.
  destruct (parse_until _ _ _ _ _) as [[v r] |] eqn:E; [| discriminate].
  apply parse_until_inv in E as (fl & x & -> & Hfl & Hx & ->); [| lia].
  cbn [bind app] in Hparse. unfold _decode in Hparse.
  rewrite remove_nesting_flags_ints in Hparse. cbn [bind] in Hparse.
  inversion Hparse; subst. clear Hparse.
  exists (fl ++ [x]). split; [rewrite <- app_assoc; reflexivity |].
  apply Forall_app in Hbytes as [Hflb Hxr]. inversion Hxr as [| ? ? Hxb _]; subst.
  assert (Hx127 : 0 <= x <= 127) by (apply no_flag_iff; split; assumption).
  apply build_id_iff.
  rewrite map_app. cbn [map].
  rewrite removelast_last, last_last.
  destruct (flag_low x Hx127) as (_ & Hxm & _). rewrite Hxm.
  assert (Hmask : Forall (fun b => 0 <= b <= 127) (map (fun b => Z.land b 127) fl)).
  { rewrite Forall_map. rewrite Forall_forall in *. intros a Ha.
    specialize (Hflb a Ha). specialize (Hfl a Ha).
    destruct (Z_lt_le_dec a 128) as [Hlt | Hge].
    - destruct (flag_low a) as (H0 & _); [unfold is_byte in Hflb; lia | contradiction].
    - destruct (flag_high a) as (_ & _ & ->); unfold is_byte in Hflb; lia. }
  split; [destruct (map _ fl); discriminate |].
  split; [eapply Forall_impl; [| exact Hmask]; unfold is_byte; intros a Ha; lia |].
  split; [assumption |].
  unfold id_bytes. rewrite removelast_last, last_last. f_equal.
  symmetry. rewrite map_map.
  transitivity (map (fun a : Z => a) fl); [| apply map_id].
  apply map_ext_in. intros a Ha.
  rewrite Forall_forall in Hflb, Hfl. specialize (Hflb a Ha). specialize (Hfl a Ha).
  destruct (Z_lt_le_dec a 128) as [Hlt | Hge].
  - destruct (flag_low a) as (H0 & _); [unfold is_byte in Hflb; lia | contradiction].
  - destruct (flag_high a) as (Hlor & _ & Hland); [unfold is_byte in Hflb; lia |].
    rewrite Hland.
    destruct (flag_low (a - 128)) as (_ & _ & _ & _ & ->); [unfold is_byte in Hflb; lia |].
    lia.
Qed.

Lemma parse_then_build_id_witness :
  exists consumed,
    [200; 129; 5; 77] = consumed ++ [77]
    /\ build VariableLengthIDAdapter (VList [VInt 72; VInt 1; VInt 5]) = Ok consumed.
Proof.
  apply (parse_then_build_id [200; 129; 5; 77] (VList [VInt 72; VInt 1; VInt 5]) [77]).
  - repeat constructor; unfold is_byte; lia.
  - reflexivity.
Defined.

(* ------------------------------------------------------------------ *)
(** ** More on the registry and on Command.from_encoded *)

Lemma label_of_kinds (b : Z) (name : string) (l : list CommandKind) :
  label_of b (map (fun k => (kind_name k, encmapping k)) l) = Some name ->
  exists k, name = kind_name k /\ encmapping k = b.
Proof.
  induction l as [| k l IH]; simpl; [discriminate |].
  destruct (Z.eqb_spec (encmapping k) b) as [Heq | _].
  - intros H; inversion H; subst. exists k. split; reflexivity.
  - exact IH.
Qed.

Lemma parse_OpcodeEnum (b : Z) (tail : bytes) :
  parse_bytes OpcodeEnum (b :: tail) =
  match label_of b (map (fun k => (kind_name k, encmapping k)) all_kinds) with
  | Some name => Ok (VLabel name b)
  | None => Ok (VInt b)
  end.
Proof.
  unfold parse_bytes, OpcodeEnum.
  change (parse (Enum Byte ?m) (b :: tail))
    with (match label_of b m with
          | Some name => Ok (VLabel name b, tail)
          | None => Ok (VInt b, tail)
          end).
  destruct (label_of b _); reflexivity.
Qed.

Lemma unregistered_is_UNUSED (k : CommandKind) : registered k = false -> k = UNUSED.
Proof. destruct k; intros H; first [reflexivity | discriminate H]. Qed.

(** [from_encoded] on a request it cannot identify: an empty request raises
    StreamError, and a request whose first byte is the opcode of no kind
    that has a definition raises KeyError, whatever follows that byte and
    whatever the response is. *)
Theorem from_encoded_unidentified :
  (forall encoded_resp, from_encoded (Some []) encoded_resp = Raise StreamError)
  /\ (forall (b : Z) (tail : bytes) (encoded_resp : option bytes),
        (forall k, registered k = true -> encmapping k <> b) ->
        exists shown,
          from_encoded (Some (b :: tail)) encoded_resp =
          Raise (KeyError ("Failed to identify command for opcode [" ++ shown ++ "]"))).
Proof.
  split; [reflexivity |].
  intros b tail encoded_resp Hnone.
  unfold from_encoded. rewrite parse_OpcodeEnum.
  destruct (label_of b _) as [name |] eqn:E; cbn [bind].
  - apply label_of_kinds in E as (k & -> & Hk).
    destruct (registered k) eqn:Hreg.
    + exfalso. exact (Hnone k Hreg Hk).
    + apply unregistered_is_UNUSED in Hreg. subst k.
      exists "UNUSED"%string. reflexivity.
  - exists (str_of_int b). reflexivity.
Qed.

Lemma from_encoded_unidentified_witness :
  exists shown,
    from_encoded (Some [17; 0; 1]) (Some [0]) =
    Raise (KeyError ("Failed to identify command for opcode [" ++ shown ++ "]")).
Proof.
  destruct from_encoded_unidentified as [_ Hbyte].
  apply (Hbyte 17 [0; 1] (Some [0])).
  intros k _; destruct k; discriminate.
Defined.

Lemma registered_request_head (k : CommandKind) (d : CommandDefinition) :
  definition_of k = Some d ->
  d.(opcode) = k
  /\ exists ms, d.(request) = Struct ((Some "opcode"%string, Const (encmapping k) Byte) :: ms).
Proof.
  destruct k; intros H; inversion H; (split; [reflexivity | eexists; reflexivity]).
Qed.

Lemma registered_response_head (k : CommandKind) (d : CommandDefinition) :
  definition_of k = Some d ->
  exists ms, d.(response) = Struct ((Some "errcode"%string, ErrorcodeEnum) :: ms).
Proof.
  destruct k; intros H; inversion H; eexists; reflexivity.
Qed.

Lemma build_Const_Byte_inv (v : Z) (obj : value) (data : bytes) :
  build (Const v Byte) obj = Ok data -> data = [v].
Proof.
  cbn [build].
  assert (Hv : build Byte (VInt v) = Ok data -> data = [v]).
  { intros H. apply build_Byte_inv in H. tauto. }
  destruct obj; cbn [as_int]; try discriminate; try exact Hv;
    match goal with
    | |- (if ?c then _ else _) = _ -> _ => destruct c; [exact Hv | discriminate]
    end.
Qed.

Lemma build_members_head (its : list (string * value)) (v : Z)
  (ms : list (option string * Construct)) (data : bytes) :
  build_members its ((Some "opcode"%string, Const v Byte) :: ms) = Ok data ->
  exists tail, data = v :: tail.
Proof.
  rewrite build_members_cons.
  destruct (lookup "opcode" its) as [obj |]; cbn [bind flagbuildnone].
  - destruct (build (Const v Byte) obj) as [d |] eqn:E; cbn [bind]; [| discriminate].
    apply build_Const_Byte_inv in E. subst d.
    destruct (build_members its ms) as [more |]; cbn [bind]; [| discriminate].
    intros H; inversion H. eexists; reflexivity.
  - destruct (build (Const v Byte) VNone) as [d |] eqn:E; cbn [bind]; [| discriminate].
    apply build_Const_Byte_inv in E. subst d.
    destruct (build_members its ms) as [more |]; cbn [bind]; [| discriminate].
    intros H; inversion H. eexists; reflexivity.
Qed.

(** The kind survives the wire: when a command made by [from_decoded]
    encodes its request, the bytes begin with the opcode of its definition,
    and [from_encoded] on these bytes (with any response) gives a command
    with the same definition. *)
Theorem encoded_request_identifies_kind
  (command_name : string) (command_args : value) (c c' : Command) (data : bytes) :
  from_decoded command_name command_args = Ok c ->
  encoded_request c = Ok (Some data, c') ->
  (exists tail, data = encmapping c.(_definition).(opcode) :: tail)
  /\ forall encoded_resp,
       from_encoded (Some data) encoded_resp =
       Ok (new_Command c.(_definition) (Some data, encoded_resp) (None, None)).
Proof.
  unfold from_decoded. intros Hc Henc.
  destruct (lookup (upper command_name) COMMAND_DEFS) as [d |] eqn:Ed; [| discriminate].
  inversion Hc; subst c. clear Hc.
  pose proof (registry_keys _ _ Ed) as [Hkey _].
  assert (Hdef : definition_of d.(opcode) = Some d).
  { unfold definition_of. rewrite <- Hkey. exact Ed. }
  destruct (registered_request_head _ _ Hdef) as (_ & ms & Hreq).
  unfold encoded_request, new_Command in Henc.
  cbn [_encoded_request _decoded_request _definition fst snd] in Henc.
  assert (Hhead : exists tail, data = encmapping d.(opcode) :: tail).
  { destruct (not_none command_args) as [obj |] eqn:Eargs;
      cbn [_should_convert build_attribute] in Henc; [| discriminate].
    rewrite Hreq in Henc.
    destruct obj; try discriminate.
    - destruct command_args; discriminate.
    - rewrite build_Struct in Henc.
      destruct (build_members items _) as [bs |] eqn:Eb; [| discriminate].
      cbn [bind] in Henc. inversion Henc; subst.
      exact (build_members_head _ _ _ _ Eb). }
  split; [exact Hhead |].
  destruct Hhead as (tail & ->).
  intros encoded_resp. unfold from_encoded.
  rewrite parse_opcode. cbn [bind new_Command _definition].
  unfold definition_of in Hdef. rewrite Hdef. reflexivity.
Qed.

Lemma encoded_request_identifies_kind_witness :
  from_encoded (Some [4; 131; 7]) (Some [0]) =
  Ok (new_Command
        (new_CommandDefinition DELETE_OBJECT OBJECT_ID (Struct []))
        (Some [4; 131; 7], Some [0]) (None, None)).
Proof.
  destruct (encoded_request_identifies_kind
              "delete_object" (VDict [("id"%string, VList [VInt 3; VInt 7])])
              (new_Command (new_CommandDefinition DELETE_OBJECT OBJECT_ID (Struct []))
                           (None, None)
                           (Some (VDict [("id"%string, VList [VInt 3; VInt 7])]), None))
              (new_Command (new_CommandDefinition DELETE_OBJECT OBJECT_ID (Struct []))
                           (Some [4; 131; 7], None)
                           (Some (VDict [("id"%string, VList [VInt 3; VInt 7])]), None))
              [4; 131; 7]) as [_ H];
    [reflexivity | reflexivity | exact (H (Some [0]))].
Defined.

(** Every entry of the registry is filed under the name of its own opcode;
    its request layout begins with that opcode as a constant byte, and its
    status and response layouts with the error code. *)
Theorem registry_entry_shape (key : string) (d : CommandDefinition) :
  lookup key COMMAND_DEFS = Some d ->
  key = kind_name d.(opcode)
  /\ d.(opcode) <> UNUSED
  /\ d.(status) = Struct [named "errcode" ErrorcodeEnum]
  /\ (exists ms,
        d.(request) = Struct (named "opcode" (Const (encmapping d.(opcode)) Byte) :: ms))
  /\ (exists ms, d.(response) = Struct (named "errcode" ErrorcodeEnum :: ms)).
Proof.
  intros H. pose proof (registry_keys _ _ H) as [Hkey Hreg].
  assert (Hdef : definition_of d.(opcode) = Some d).
  { unfold definition_of. rewrite <- Hkey. exact H. }
  split; [exact Hkey |].
  split; [intros Hu; rewrite Hu in Hreg; discriminate |].
  split; [exact (definition_status _ _ Hdef) |].
  split.
  - destruct (registered_request_head _ _ Hdef) as (_ & ms & Hms). exists ms. exact Hms.
  - exact (registered_response_head _ _ Hdef).
Qed.

Lemma registry_entry_shape_witness :
  exists ms,
    request_of CREATE_OBJECT = Struct (named "opcode" (Const 3 Byte) :: ms).
Proof.
  destruct (registry_entry_shape "CREATE_OBJECT"
              (new_CommandDefinition CREATE_OBJECT
                 (OBJECT_TYPE +++ OBJECT_SIZE +++ OBJECT_DATA) (Struct [])))
    as (_ & _ & _ & Hreq & _); [reflexivity |].
  exact Hreq.
Defined.

(* ------------------------------------------------------------------ *)
(** ** More on the four properties of a Command *)

(** Each of the four properties assigns at most its own attribute, and a
    second access gives the same value and leaves the command as it is. *)
Theorem properties_are_cached (self : Command) :
  (forall v self',
     encoded_request self = Ok (v, self') ->
     self' = set_encoded_request self v /\ encoded_request self' = Ok (v, self'))
  /\ (forall v self',
        encoded_response self = Ok (v, self') ->
        self' = set_encoded_response self v /\ encoded_response self' = Ok (v, self'))
  /\ (forall v self',
        decoded_request self = Ok (v, self') ->
        self' = set_decoded_request self v /\ decoded_request self' = Ok (v, self'))
  /\ (forall v self',
        decoded_response self = Ok (v, self') ->
        self' = set_decoded_response self v /\ decoded_response self' = Ok (v, self')).
Proof.
  destruct self as [d er es dr ds].
  split; [| split; [| split]]; intros v self'.
  - unfold encoded_request. cbn [_encoded_request _decoded_request _definition].
    destruct er as [x |], dr as [y |]; cbn [_should_convert];
      try (intros H; inversion H; subst; split; reflexivity).
    destruct (build_attribute _ _) as [data |]; cbn [bind]; [| discriminate].
    intros H; inversion H; subst. split; reflexivity.
  - unfold encoded_response. cbn [_encoded_response _decoded_response _definition].
    destruct es as [x |], ds as [y |]; cbn [_should_convert];
      try (intros H; inversion H; subst; split; reflexivity).
    destruct (build_response_attribute _ _) as [data |]; cbn [bind]; [| discriminate].
    intros H; inversion H; subst. split; reflexivity.
  - unfold decoded_request. cbn [_encoded_request _decoded_request _definition].
    destruct dr as [x |], er as [y |]; cbn [_should_convert];
      try (intros H; inversion H; subst; split; reflexivity).
    destruct (parse_attribute _ _) as [obj |]; cbn [bind]; [| discriminate].
    intros H; inversion H; subst. split; reflexivity.
  - unfold decoded_response. cbn [_encoded_response _decoded_response _definition].
    destruct ds as [x |], es as [y |]; cbn [_should_convert];
      try (intros H; inversion H; subst; split; reflexivity).
    destruct (_parse_error _) as [[exc |] |]; cbn [bind]; [| | discriminate].
    + intros H; inversion H; subst. split; reflexivity.
    + destruct (parse_attribute _ _) as [obj |]; cbn [bind]; [| discriminate].
      intros H; inversion H; subst. split; reflexivity.
Qed.

Lemma properties_are_cached_witness :
  encoded_request
    (new_Command (new_CommandDefinition DELETE_OBJECT OBJECT_ID (Struct []))
                 (Some [4; 131; 7], None)
                 (Some (VDict [("id"%string, VList [VInt 3; VInt 7])]), None))
  = Ok (Some [4; 131; 7],
        new_Command (new_CommandDefinition DELETE_OBJECT OBJECT_ID (Struct []))
                    (Some [4; 131; 7], None)
                    (Some (VDict [("id"%string, VList [VInt 3; VInt 7])]), None)).
Proof.
  destruct (properties_are_cached
              (new_Command (new_CommandDefinition DELETE_OBJECT OBJECT_ID (Struct []))
                           (None, None)
                           (Some (VDict [("id"%string, VList [VInt 3; VInt 7])]), None)))
    as (Hreq & _).
  destruct (Hreq (Some [4; 131; 7])
              (new_Command (new_CommandDefinition DELETE_OBJECT OBJECT_ID (Struct []))
                           (Some [4; 131; 7], None)
                           (Some (VDict [("id"%string, VList [VInt 3; VInt 7])]), None)))
    as [_ Hagain]; [reflexivity | exact Hagain].
Defined.

(** With a status byte that is not negative, [decoded_response] of a command
    of a registered kind gives no failure object: it parses the response by
    the kind's layout, caches the fields, whose first entry is the error
    code read from the status byte, and raises what parsing raises. *)
Theorem decoded_response_nonnegative_status
  (k : CommandKind) (d : CommandDefinition) (encoded_req : option bytes)
  (decoded_req : option value) (st : Z) (more : bytes) :
  definition_of k = Some d ->
  0 <= signed st ->
  let self := new_Command d (encoded_req, Some (st :: more)) (decoded_req, None) in
  match parse_bytes d.(response) (st :: more) with
  | Ok fields =>
      decoded_response self =
      Ok (Some (Parsed fields),
          new_Command d (encoded_req, Some (st :: more))
                      (decoded_req, Some (Parsed fields)))
      /\ exists others, fields = VDict (("errcode"%string, errcode_of st) :: others)
  | Raise e => decoded_response self = Raise e
  end.
Proof.
  intros Hdef Hst self.
  assert (Hdr : decoded_response self =
                (fields <- parse_bytes d.(response) (st :: more) ;;
                 Ok (Some (Parsed fields),
                     new_Command d (encoded_req, Some (st :: more))
                                 (decoded_req, Some (Parsed fields))))).
  { unfold decoded_response.
    change (_should_convert (_decoded_response self) (_encoded_response self)) with true.
    cbv iota. unfold self.
    rewrite parse_error_code by (apply (definition_status k), Hdef).
    destruct (Z.ltb_spec (signed st) 0) as [Hneg | _]; [lia |].
    cbn [bind]. unfold new_Command.
    cbn [_encoded_response _definition snd parse_attribute].
    destruct (parse_bytes (response d) (st :: more)); reflexivity. }
  rewrite Hdr.
  destruct (parse_bytes (response d) (st :: more)) as [fields | e] eqn:E;
    cbn [bind]; [| reflexivity].
  split; [reflexivity |].
  destruct (registered_response_head _ _ Hdef) as (ms & Hms).
  rewrite Hms in E. unfold parse_bytes in E.
  rewrite parse_Struct, parse_members_cons, parse_ErrorcodeEnum in E. cbn [bind] in E.
  destruct (parse_members ms more) as [[others r] |]; [| discriminate].
  cbn [bind] in E. inversion E. exists others. reflexivity.
Qed.

Lemma decoded_response_nonnegative_status_witness :
  decoded_response
    (new_Command (new_CommandDefinition CREATE_PROFILE (Struct []) PROFILE_ID)
                 (Some [7], Some [0; 254]) (None, None))
  = Ok (Some (Parsed (VDict [("errcode"%string, VLabel "OK" 0);
                             ("profile_id"%string, VInt (-2))])),
        new_Command (new_CommandDefinition CREATE_PROFILE (Struct []) PROFILE_ID)
                    (Some [7], Some [0; 254])
                    (None,
                     Some (Parsed (VDict [("errcode"%string, VLabel "OK" 0);
                                          ("profile_id"%string, VInt (-2))])))).
Proof.
  assert (Hst : 0 <= signed 0) by (vm_compute; discriminate).
  pose proof (decoded_response_nonnegative_status CREATE_PROFILE
                (new_CommandDefinition CREATE_PROFILE (Struct []) PROFILE_ID)
                (Some [7]) None 0 [254] eq_refl Hst) as H.
  cbv zeta in H.
  change (parse_bytes
            (response (new_CommandDefinition CREATE_PROFILE (Struct []) PROFILE_ID))
            [0; 254])
    with (Ok (VDict [("errcode"%string, VLabel "OK" 0);
                     ("profile_id"%string, VInt (-2))])) in H.
  exact (proj1 H).
Defined.

(* ------------------------------------------------------------------ *)
(** ** More on the layouts *)




Lemma response_of_LOG_VALUES :
  response_of LOG_VALUES =
  Struct [(Some "errcode"%string, ErrorcodeEnum);
          (Some "objects"%string, Optional (Sequence [LOGGED_RECORD]));
          (Some "terminator"%string, Const 0 Byte);
          (None, Terminated)].
Proof. reflexivity. Qed.

Lemma LOGGED_RECORD_members :
  LOGGED_RECORD =
  Struct [(None, Padding 1); (Some "id"%string, VariableLengthIDAdapter);
          (Some "type"%string, Byte); (Some "size"%string, Byte);
          (Some "data"%string, slice_all Byte)].
Proof. reflexivity. Qed.

Lemma parse_LOGGED_RECORD_rest (s : bytes) (v : value) (rest : bytes) :
  parse LOGGED_RECORD s = Ok (v, rest) -> rest = [].
Proof.
  rewrite LOGGED_RECORD_members.
  rewrite parse_Struct, parse_members_cons, parse_Padding_1.
  destruct s as [| pad s]; [discriminate |]. cbn [bind].
  rewrite parse_members_cons.
  destruct (parse VariableLengthIDAdapter s) as [[vid r1] |]; cbn [bind];
    [| discriminate].
  rewrite parse_members_cons.
  destruct r1 as [| t r2]; [discriminate |].
  change (parse Byte (t :: r2)) with (@Ok (value * bytes) (VInt t, r2)).
  cbn [bind]. rewrite parse_members_cons.
  destruct r2 as [| z r3]; [discriminate |].
  change (parse Byte (z :: r3)) with (@Ok (value * bytes) (VInt z, r3)).
  cbn [bind]. rewrite parse_members_cons.
  rewrite parse_GreedyRange_Byte. cbn [bind parse_members].
  intros H; inversion H; reflexivity.
Qed.

Lemma parse_LOG_VALUES_response (data : bytes) (fields : value) :
  parse_bytes (response_of LOG_VALUES) data = Ok fields ->
  exists st, data = [st; 0].
Proof.
  rewrite response_of_LOG_VALUES. unfold parse_bytes.
  rewrite parse_Struct, parse_members_cons.
  destruct data as [| st d1]; [discriminate |].
  rewrite parse_ErrorcodeEnum. cbn [bind].
  rewrite parse_members_cons, parse_Optional, parse_Sequence_single.
  destruct (parse LOGGED_RECORD d1) as [[rec r] |] eqn:Erec; cbn [bind].
  - apply parse_LOGGED_RECORD_rest in Erec. subst r.
    rewrite parse_members_cons, parse_Const_Byte. discriminate.
  - rewrite parse_members_cons, parse_Const_Byte.
    destruct d1 as [| z d2]; [discriminate |].
    destruct (Z.eqb_spec z 0) as [-> | _]; [| discriminate].
    cbn [bind]. rewrite parse_members_cons.
    destruct d2 as [| extra d3]; [| discriminate].
    intros _. exists st. reflexivity.
Qed.

(** The two list responses parse only when they list nothing: a
    LIST_OBJECTS response parses exactly when it is three bytes, the status,
    a padding byte and 0x00, and a LOG_VALUES response exactly when it is
    two bytes, the status and 0x00. *)
Theorem list_responses_accepted :
  (forall data : bytes,
     (exists fields, parse_bytes (response_of LIST_OBJECTS) data = Ok fields)
     <-> exists st pad, data = [st; pad; 0])
  /\ (forall data : bytes,
        (exists fields, parse_bytes (response_of LOG_VALUES) data = Ok fields)
        <-> exists st, data = [st; 0]).
Proof.
  split; intros data; split.
  - intros [fields H]. apply parse_LIST_OBJECTS_response in H as (st & pad & -> & _).
    exists st, pad. reflexivity.
  - intros (st & pad & ->). eexists. apply parse_LIST_OBJECTS_minimal.
  - intros [fields H]. exact (parse_LOG_VALUES_response _ _ H).
  - intros (st & ->). eexists.
    rewrite response_of_LOG_VALUES. unfold parse_bytes.
    rewrite parse_Struct, parse_members_cons, parse_ErrorcodeEnum. reflexivity.
Qed.

(** Every byte is a status the error-code enum reads and writes back: what
    it reads has the signed value of the byte as its [int], a label or not,
    and builds to the same byte.  The opcode enum does the same with the
    unsigned value. *)
Theorem enums_keep_every_byte (b : Z) (rest : bytes) :
  is_byte b ->
  (exists v,
     parse ErrorcodeEnum (b :: rest) = Ok (v, rest)
     /\ int v = Ok (signed b)
     /\ build ErrorcodeEnum v = Ok [b])
  /\ (exists v,
        parse OpcodeEnum (b :: rest) = Ok (v, rest)
        /\ int v = Ok b
        /\ build OpcodeEnum v = Ok [b]).
Proof.
  intros Hb. split.
  - assert (H : errcode_byte_check b = true).
    { apply byte_cases; [vm_compute; reflexivity | exact Hb]. }
    unfold errcode_byte_check in H.
    exists (errcode_of b). rewrite parse_ErrorcodeEnum.
    rewrite (parse_ErrorcodeEnum b []) in H.
    destruct (int (errcode_of b)) as [n |]; [| discriminate].
    destruct (build ErrorcodeEnum (errcode_of b)) as [[| x [| y l]] |];
      try discriminate.
    apply andb_true_iff in H as [Hn Hx].
    apply Z.eqb_eq in Hn, Hx. subst. split; [| split]; reflexivity.
  - assert (H : opcode_byte_check b = true).
    { apply byte_cases; [vm_compute; reflexivity | exact Hb]. }
    unfold opcode_byte_check in H.
    assert (Hp : forall r, parse OpcodeEnum (b :: r) =
                           match parse OpcodeEnum [b] with
                           | Ok (v, _) => Ok (v, r)
                           | Raise e => Raise e
                           end).
    { intros r. unfold OpcodeEnum.
      change (parse (Enum Byte ?m) (b :: r))
        with (match label_of b m with
              | Some name => Ok (VLabel name b, r)
              | None => Ok (VInt b, r)
              end).
      change (parse (Enum Byte ?m) [b])
        with (match label_of b m with
              | Some name => Ok (VLabel name b, @nil Z)
              | None => Ok (VInt b, @nil Z)
              end).
      destruct (label_of b _); reflexivity. }
    rewrite (Hp rest).
    destruct (parse OpcodeEnum [b]) as [[v [| ? ?]] |]; try discriminate.
    exists v.
    destruct (int v) as [n |]; [| discriminate].
    destruct (build OpcodeEnum v) as [[| x [| y l]] |]; try discriminate.
    apply andb_true_iff in H as [Hn Hx].
    apply Z.eqb_eq in Hn, Hx. subst. split; [| split]; reflexivity.
Qed.

Lemma enums_keep_every_byte_witness :
  exists v,
    parse ErrorcodeEnum [190; 5] = Ok (v, [5])
    /\ int v = Ok (-66)
    /\ build ErrorcodeEnum v = Ok [190].
Proof.
  destruct (enums_keep_every_byte 190 [5]) as [H _]; [unfold is_byte; lia |].
  exact H.
Defined.

Lemma build_Const_Byte_ok (v : Z) :
  is_byte v ->
  build (Const v Byte) VNone = Ok [v] /\ build (Const v Byte) (VInt v) = Ok [v].
Proof.
  intros Hv. split.
  - cbn [build]. apply build_Byte_ok, Hv.
  - cbn [build as_int]. rewrite Z.eqb_refl. apply build_Byte_ok, Hv.
Qed.

(** A request of a kind that addresses an object cannot be encoded without
    an id: when the arguments have neither [opcode] nor [id], the encoded
    request raises KeyError for the key [id]. *)
Theorem request_without_id_raises (k : CommandKind) (its : list (string * value)) :
  In k [READ_VALUE; WRITE_VALUE; DELETE_OBJECT; FREE_SLOT; FREE_SLOT_ROOT;
        READ_SYSTEM_VALUE; WRITE_SYSTEM_VALUE] ->
  lookup "opcode" its = None ->
  lookup "id" its = None ->
  (c <- from_decoded (kind_name k) (VDict its) ;; encoded_request c)
  = Raise (KeyError "id").
Proof.
  intros Hk Hop Hid.
  assert (Hlayout : exists ms,
             request_of k =
             Struct ((Some "opcode"%string, Const (encmapping k) Byte)
                     :: (Some "id"%string, VariableLengthIDAdapter) :: ms)).
  { kinds_of Hk; eexists; reflexivity. }
  destruct Hlayout as (ms & Hlayout).
  assert (Hb : build (request_of k) (VDict its) = Raise (KeyError "id")).
  { rewrite Hlayout, build_Struct, build_members_cons, Hop. cbn [bind flagbuildnone].
    destruct (build_Const_Byte_ok (encmapping k)) as [Hc _];
      [destruct k; unfold is_byte; simpl; lia |].
    rewrite Hc. cbn [bind].
    rewrite build_members_cons, Hid. reflexivity. }
  unfold from_decoded. rewrite upper_kind_name.
  assert (Hreg : exists d, lookup (kind_name k) COMMAND_DEFS = Some d
                           /\ d.(request) = request_of k).
  { kinds_of Hk; eexists; split; reflexivity. }
  destruct Hreg as (d & -> & Hreq).
  cbn [bind not_none]. unfold encoded_request, new_Command.
  cbn [_encoded_request _decoded_request _definition fst snd _should_convert
       build_attribute].
  rewrite Hreq, Hb. reflexivity.
Qed.

Lemma request_without_id_raises_witness :
  (c <- from_decoded "free_slot" (VDict [("type"%string, VInt 6)]) ;;
   encoded_request c)
  = Raise (KeyError "id").
Proof.
  apply (request_without_id_raises FREE_SLOT [("type"%string, VInt 6)]).
  - simpl. tauto.
  - reflexivity.
  - reflexivity.
Defined.

Lemma response_of_LIST_PROFILES :
  response_of LIST_PROFILES =
  Struct [(Some "errcode"%string, ErrorcodeEnum);
          (Some "profile_id"%string, Int8sb);
          (Some "defined_profiles"%string, Sequence [Int8ub])].
Proof. reflexivity. Qed.

(** A LIST_PROFILES response holds one defined profile, not a list of them:
    of the ids given to [build] only the first is written, and [parse] reads
    one id and leaves whatever follows it unread. *)
Theorem LIST_PROFILES_one_defined_profile
  (st profile p : Z) (others : list value) (trailing : bytes) :
  is_status st -> is_sbyte profile -> is_byte p ->
  build (response_of LIST_PROFILES)
        (VDict [("errcode"%string, errcode_of st);
                ("profile_id"%string, VInt profile);
                ("defined_profiles"%string, VList (VInt p :: others))])
  = Ok [st; sbyte profile; p]
  /\ parse_bytes (response_of LIST_PROFILES) (st :: sbyte profile :: p :: trailing)
     = Ok (VDict [("errcode"%string, errcode_of st);
                  ("profile_id"%string, VInt profile);
                  ("defined_profiles"%string, VList [VInt p])]).
Proof.
  intros Hst Hprofile Hp. rewrite response_of_LIST_PROFILES. split.
  - rewrite build_Struct, build_members_cons.
    change (lookup "errcode" _) with (Some (errcode_of st)). cbn [bind].
    rewrite build_errcode by assumption. cbn [bind].
    rewrite build_members_cons.
    change (lookup "profile_id" _) with (Some (VInt profile)). cbn [bind].
    destruct (rt_Int8sb profile Hprofile) as [Hb _]. rewrite Hb. cbn [bind].
    rewrite build_members_cons.
    change (lookup "defined_profiles" _) with (Some (VList (VInt p :: others))).
    cbn [bind].
    change (build (Sequence [Int8ub]) (VList (VInt p :: others)))
      with (data <- build Byte (VInt p) ;; more <- Ok [] ;; Ok (data ++ more)).
    rewrite build_Byte_ok by assumption. reflexivity.
  - unfold parse_bytes.
    rewrite parse_Struct, parse_members_cons, parse_ErrorcodeEnum. cbn [bind].
    rewrite parse_members_cons.
    change (parse Int8sb (sbyte profile :: p :: trailing))
      with (@Ok (value * bytes) (VInt (signed (sbyte profile)), p :: trailing)).
    rewrite signed_sbyte by assumption. reflexivity.
Qed.

Lemma LIST_PROFILES_one_defined_profile_witness :
  build (response_of LIST_PROFILES)
        (VDict [("errcode"%string, errcode_of 0);
                ("profile_id"%string, VInt (-1));
                ("defined_profiles"%string, VList [VInt 1; VInt 2; VInt 3])])
  = Ok [0; 255; 1]
  /\ parse_bytes (response_of LIST_PROFILES) [0; 255; 1; 2; 3]
     = Ok (VDict [("errcode"%string, errcode_of 0);
                  ("profile_id"%string, VInt (-1));
                  ("defined_profiles"%string, VList [VInt 1])]).
Proof.
  apply (LIST_PROFILES_one_defined_profile 0 (-1) 1 [VInt 2; VInt 3] [2; 3]).
  - unfold is_status; lia.
  - unfold is_sbyte; lia.
  - unfold is_byte; lia.
Defined.

(** In the responses that carry a value, [data] is every byte after the
    size byte, whatever the size byte says; a response of fewer than three
    bytes raises StreamError. *)
Theorem response_data_reads_to_end (k : CommandKind) :
  In k [READ_VALUE; WRITE_VALUE; READ_SYSTEM_VALUE; WRITE_SYSTEM_VALUE] ->
  (forall (st type size : Z) (payload : bytes),
     parse_bytes (response_of k) (st :: type :: size :: payload) =
     Ok (VDict [("errcode"%string, errcode_of st);
                ("type"%string, VInt type);
                ("size"%string, VInt size);
                ("data"%string, ints payload)]))
  /\ (forall data : bytes,
        (List.length data < 3)%nat ->
        parse_bytes (response_of k) data = Raise StreamError).
Proof.
  intros Hk.
  assert (Hlayout : response_of k =
                    Struct [(Some "errcode"%string, ErrorcodeEnum);
                            (Some "type"%string, Byte);
                            (Some "size"%string, Byte);
                            (Some "data"%string, slice_all Byte)]).
  { kinds_of Hk; reflexivity. }
  rewrite Hlayout. unfold parse_bytes. split.
  - intros st type size payload.
    rewrite parse_Struct, parse_members_cons, parse_ErrorcodeEnum. cbn [bind].
    rewrite parse_members_cons.
    change (parse Byte (type :: size :: payload))
      with (@Ok (value * bytes) (VInt type, size :: payload)).
    cbn [bind]. rewrite parse_members_cons.
    change (parse Byte (size :: payload))
      with (@Ok (value * bytes) (VInt size, payload)).
    cbn [bind]. rewrite parse_members_cons, parse_GreedyRange_Byte. reflexivity.
  - intros data Hlen.
    rewrite parse_Struct, parse_members_cons.
    destruct data as [| st [| t [| s data]]]; [reflexivity | | | simpl in Hlen; lia];
      rewrite parse_ErrorcodeEnum; reflexivity.
Qed.

Lemma response_data_reads_to_end_witness :
  parse_bytes (response_of READ_VALUE) [0; 6; 1; 10; 20; 30] =
  Ok (VDict [("errcode"%string, errcode_of 0);
             ("type"%string, VInt 6);
             ("size"%string, VInt 1);
             ("data"%string, ints [10; 20; 30])]).
Proof.
  destruct (response_data_reads_to_end READ_VALUE) as [Hread _].
  - simpl. tauto.
  - apply (Hread 0 6 1 [10; 20; 30]).
Defined.

Lemma build_each_Byte_inv (data : bytes) (d : bytes) :
  build_each (build Byte) (map VInt data) = Ok d -> Forall is_byte data /\ d = data.
Proof.
  revert d. induction data as [| b data IH]; intros d; cbn [map build_each].
  - intros H; inversion H. split; [constructor | reflexivity].
  - destruct (build Byte (VInt b)) as [db |] eqn:E; cbn [bind]; [| discriminate].
    apply build_Byte_inv in E as [Hb ->].
    destruct (build_each (build Byte) (map VInt data)) as [more |] eqn:E';
      cbn [bind]; [| discriminate].
    destruct (IH more eq_refl) as [Hall ->].
    intros H; inversion H. split; [constructor; assumption | reflexivity].
Qed.

(** Encoding a CREATE_OBJECT request from its three fields succeeds exactly
    when type, size and every data value are bytes; the bytes are then the
    opcode 3, the type, the size and the data, and the size is not compared
    with the number of data bytes. *)
Theorem CREATE_OBJECT_request_bytes (type size : Z) (data : list Z) (encoded : bytes) :
  build (request_of CREATE_OBJECT)
        (VDict [("type"%string, VInt type); ("size"%string, VInt size);
                ("data"%string, ints data)]) = Ok encoded
  <-> is_byte type /\ is_byte size /\ Forall is_byte data
      /\ encoded = 3 :: type :: size :: data.
Proof.
  change (request_of CREATE_OBJECT)
    with (Struct [(Some "opcode"%string, Const 3 Byte); (Some "type"%string, Byte);
                  (Some "size"%string, Byte); (Some "data"%string, slice_all Byte)]).
  rewrite build_Struct, build_members_cons.
  change (lookup "opcode" _) with (@None value). cbn [bind flagbuildnone].
  change (build (Const 3 Byte) VNone) with (@Ok bytes [3]). cbn [bind].
  rewrite build_members_cons.
  change (lookup "type" _) with (Some (VInt type)). cbn [bind].
  split.
  - destruct (build Byte (VInt type)) as [dt |] eqn:Et; cbn [bind]; [| discriminate].
    apply build_Byte_inv in Et as [Ht ->].
    rewrite build_members_cons.
    change (lookup "size" _) with (Some (VInt size)). cbn [bind].
    destruct (build Byte (VInt size)) as [dz |] eqn:Ez; cbn [bind]; [| discriminate].
    apply build_Byte_inv in Ez as [Hz ->].
    rewrite build_members_cons.
    change (lookup "data" _) with (Some (ints data)). cbn [bind].
    unfold slice_all, ints. rewrite build_GreedyRange.
    destruct (build_each (build Byte) (map VInt data)) as [dd |] eqn:Ed;
      cbn [bind build_members]; [| discriminate].
    apply build_each_Byte_inv in Ed as [Hd ->].
    intros H; inversion H; subst.
    rewrite app_nil_r. repeat split; auto; try apply Ht; try apply Hz.
  - intros (Ht & Hz & Hd & ->).
    rewrite build_Byte_ok by assumption. cbn [bind].
    rewrite build_members_cons.
    change (lookup "size" _) with (Some (VInt size)). cbn [bind].
    rewrite build_Byte_ok by assumption. cbn [bind].
    rewrite build_members_cons.
    change (lookup "data" _) with (Some (ints data)). cbn [bind].
    unfold slice_all, ints. rewrite build_GreedyRange, build_each_Byte by assumption.
    cbn [bind build_members]. rewrite app_nil_r. reflexivity.
Qed.

(** A profile id is one signed byte: encoding a request that carries one
    succeeds exactly when the id lies in -128..127, a negative id is written
    as its two's complement, and any byte parses back to a signed id. *)
Theorem profile_id_request_bytes (k : CommandKind) (profile : Z) :
  In k [LIST_OBJECTS; DELETE_PROFILE; ACTIVATE_PROFILE] ->
  (forall encoded,
     build (request_of k) (VDict [("profile_id"%string, VInt profile)]) = Ok encoded
     <-> is_sbyte profile /\ encoded = [encmapping k; sbyte profile])
  /\ (forall b : Z,
        parse_bytes (request_of k) [encmapping k; b] =
        Ok (VDict [("opcode"%string, VInt (encmapping k));
                   ("profile_id"%string, VInt (signed b))])).
Proof.
  intros Hk.
  assert (Hlayout : request_of k =
                    Struct [(Some "opcode"%string, Const (encmapping k) Byte);
                            (Some "profile_id"%string, Int8sb)]).
  { kinds_of Hk; reflexivity. }
  assert (Hop : is_byte (encmapping k)).
  { destruct k; unfold is_byte; simpl; lia. }
  rewrite Hlayout. split.
  - intros encoded.
    rewrite build_Struct, build_members_cons.
    change (lookup "opcode" _) with (@None value). cbn [bind flagbuildnone].
    destruct (build_Const_Byte_ok _ Hop) as [-> _]. cbn [bind].
    rewrite build_members_cons.
    change (lookup "profile_id" _) with (Some (VInt profile)). cbn [bind].
    change (build Int8sb (VInt profile)) with (pack_b (VInt profile)).
    unfold pack_b, is_sbyte, sbyte. cbn [as_int].
    destruct (Z.leb_spec (-128) profile) as [Hlo | Hlo],
             (Z.leb_spec profile 127) as [Hhi | Hhi];
      cbn [andb bind build_members app]; split;
      try discriminate; try (intros [Hr _]; lia).
    + intros Heq; inversion Heq. split; [lia | reflexivity].
    + intros [_ ->]. reflexivity.
  - intros b. unfold parse_bytes.
    rewrite parse_Struct, parse_members_cons, parse_Const_Byte, Z.eqb_refl.
    reflexivity.
Qed.

Lemma profile_id_request_bytes_witness :
  build (request_of ACTIVATE_PROFILE) (VDict [("profile_id"%string, VInt (-1))])
  = Ok [9; 255]
  /\ parse_bytes (request_of ACTIVATE_PROFILE) [9; 255]
     = Ok (VDict [("opcode"%string, VInt 9); ("profile_id"%string, VInt (-1))]).
Proof.
  destruct (profile_id_request_bytes ACTIVATE_PROFILE (-1)) as [Hbuild Hparse].
  - simpl. tauto.
  - split.
    + apply Hbuild. split; [unfold is_sbyte; lia | reflexivity].
    + apply (Hparse 255).
Defined.
